(** * Idea Board backend (backend/server.py): model and verification

    The service keeps a MongoDB collection of idea documents and exposes
    three handlers: [get_ideas], [create_idea] and [upvote_idea].  Python
    dictionaries and BSON documents are finite maps from field names to
    tagged values; the collection is the list of its documents in natural
    (insertion) order; the handlers pass the database state explicitly.
    The values drawn from the environment by a request ([uuid.uuid4()],
    [datetime.now(timezone.utc)]) are arguments of the handler.

    A Python [str] is a [string], its [len] the number of characters; a
    Python [int] is a [Z].  The pydantic models validate the declared types
    without coercion; [None] and the status 500 stand for an exception that
    the handler does not catch.  The store sorts by the keys it is given
    and leaves the order of documents that agree on all of them open:
    [sorts_to] and [get_ideas_may] say what it may return, [cursor_sort]
    and [get_ideas] compute one such answer.

    After the idea board come the rest of the module (the status-check
    endpoints with their own collection, the origins handed to the CORS
    middleware, the root endpoint) and the API tester of backend_test.py,
    which drives the handlers. *)

From Stdlib Require Import ZArith Lia Ascii String.
From stdpp Require Import base option list gmap strings sorting.

Local Open Scope Z_scope.

(** ** Decimal fields of fixed width *)

Definition digit_char (d : Z) : ascii := ascii_of_N (48 + Z.to_N d).

Definition digit_val (c : ascii) : option Z :=
  let n := Z.of_N (N_of_ascii c) in
  if (48 <=? n) && (n <=? 57) then Some (n - 48) else None.

(** ["%0wd" % n] for a field [0 <= n < 10^w]: exactly [w] digits, the most
    significant first. *)
Fixpoint zfill (w : nat) (n : Z) : string :=
  match w with
  | O => EmptyString
  | S w' => String (digit_char ((n / 10 ^ Z.of_nat w') mod 10))
                   (zfill w' (n mod 10 ^ Z.of_nat w'))
  end.

(** Reads exactly [w] decimal digits from the front of [s]. *)
Fixpoint read_digits (w : nat) (acc : Z) (s : string) : option (Z * string) :=
  match w with
  | O => Some (acc, s)
  | S w' =>
      match s with
      | EmptyString => None
      | String c rest =>
          match digit_val c with
          | Some d => read_digits w' (acc * 10 + d) rest
          | None => None
          end
      end
  end.

(** Consumes the literal character [c]. *)
Definition expect (c : ascii) (s : string) : option string :=
  match s with
  | String c' rest => if Ascii.eqb c c' then Some rest else None
  | EmptyString => None
  end.

(** ** datetime objects *)

(** A [datetime.datetime]: the seven calendar fields and [tzinfo], given as
    the UTC offset in minutes ([None] for a naive object, [Some 0] for
    [timezone.utc]). *)
Record datetime := mk_datetime {
  year : Z;
  month : Z;
  day : Z;
  hour : Z;
  minute : Z;
  second : Z;
  microsecond : Z;
  tzinfo : option Z
}.

Global Instance datetime_eq_dec : EqDecision datetime.
Proof. solve_decision. Defined.

Definition is_leap (y : Z) : bool :=
  (y mod 4 =? 0) && (negb (y mod 100 =? 0) || (y mod 400 =? 0)).

Definition days_in_month (y m : Z) : Z :=
  if m =? 2 then (if is_leap y then 29 else 28)
  else if (m =? 4) || (m =? 6) || (m =? 9) || (m =? 11) then 30
  else 31.

Definition in_range (lo hi x : Z) : bool := (lo <=? x) && (x <=? hi).

(** The range checks of the [datetime] constructor (MINYEAR = 1,
    MAXYEAR = 9999; a fixed offset is strictly within one day). *)
Definition valid_datetime (d : datetime) : bool :=
  in_range 1 9999 (year d) && in_range 1 12 (month d) &&
  in_range 1 (days_in_month (year d) (month d)) (day d) &&
  in_range 0 23 (hour d) && in_range 0 59 (minute d) &&
  in_range 0 59 (second d) && in_range 0 999999 (microsecond d) &&
  match tzinfo d with
  | None => true
  | Some off => in_range (-1439) 1439 off
  end.

(** [datetime.now(timezone.utc)] yields an aware object in UTC. *)
Definition is_utc (d : datetime) : bool :=
  valid_datetime d && bool_decide (tzinfo d = Some 0).

Definition format_offset (tz : option Z) : string :=
  match tz with
  | None => ""
  | Some off =>
      String (if off <? 0 then "-"%char else "+"%char)
        (zfill 2 (Z.abs off / 60) +:+ ":" +:+ zfill 2 (Z.abs off mod 60))
  end.

(** [datetime.isoformat()]: [YYYY-MM-DDTHH:MM:SS], then [.ffffff] only when
    the microsecond field is not zero, then the UTC offset. *)
Definition isoformat (d : datetime) : string :=
  zfill 4 (year d) +:+ "-" +:+ zfill 2 (month d) +:+ "-" +:+ zfill 2 (day d)
  +:+ "T" +:+ zfill 2 (hour d) +:+ ":" +:+ zfill 2 (minute d) +:+ ":"
  +:+ zfill 2 (second d)
  +:+ (if microsecond d =? 0 then "" else "." +:+ zfill 6 (microsecond d))
  +:+ format_offset (tzinfo d).

Definition read_fraction (s : string) : option (Z * string) :=
  match s with
  | String "."%char rest => read_digits 6 0 rest
  | _ => Some (0, s)
  end.

Definition read_offset (s : string) : option (option Z) :=
  match s with
  | EmptyString => Some None
  | String sign rest =>
      if Ascii.eqb sign "+" || Ascii.eqb sign "-" then
        '(hh, rest) ← read_digits 2 0 rest;
        rest ← expect ":" rest;
        '(mm, rest) ← read_digits 2 0 rest;
        match rest with
        | EmptyString =>
            if mm <? 60 then
              Some (Some (if Ascii.eqb sign "-" then - (hh * 60 + mm)
                          else hh * 60 + mm))
            else None
        | _ => None
        end
      else None
  end.

(** [datetime.fromisoformat] on the grammar that [isoformat] emits (date,
    one separator character, [HH:MM:SS], optional six-digit fraction,
    optional [+HH:MM] or [-HH:MM]); [None] stands for [ValueError]. *)
Definition fromisoformat (s : string) : option datetime :=
  '(y, s) ← read_digits 4 0 s;
  s ← expect "-" s;
  '(mo, s) ← read_digits 2 0 s;
  s ← expect "-" s;
  '(dd, s) ← read_digits 2 0 s;
  match s with
  | EmptyString => None
  | String _ s =>
      '(hh, s) ← read_digits 2 0 s;
      s ← expect ":" s;
      '(mi, s) ← read_digits 2 0 s;
      s ← expect ":" s;
      '(ss, s) ← read_digits 2 0 s;
      '(us, s) ← read_fraction s;
      tz ← read_offset s;
      let d := mk_datetime y mo dd hh mi ss us tz in
      if valid_datetime d then Some d else None
  end.

(** A three-way comparison that behaves like one of a linear preorder. *)
Class Comparator {A : Type} (cmp : A → A → comparison) : Prop := {
  cmp_antisym a b : cmp b a = CompOpp (cmp a b);
  cmp_eq_l a b c : cmp a b = Eq → cmp a c = cmp b c;
  cmp_lt_trans a b c : cmp a b = Lt → cmp b c = Lt → cmp a c = Lt
}.

(** Comparison of two datetimes carrying the same [tzinfo], as CPython's
    [datetime._cmp] does it: the field tuples in lexicographic order. *)
Definition lex (c1 c2 : comparison) : comparison :=
  match c1 with Eq => c2 | _ => c1 end.

Definition datetime_cmp (a b : datetime) : comparison :=
  lex (year a ?= year b)
  (lex (month a ?= month b)
  (lex (day a ?= day b)
  (lex (hour a ?= hour b)
  (lex (minute a ?= minute b)
  (lex (second a ?= second b)
       (microsecond a ?= microsecond b)))))).

(** The instant of an aware datetime: [toordinal] counts the days since
    0001-01-01 (day 1) in the proleptic Gregorian calendar, as CPython's
    [_ymd2ord] does, and [timestamp_us] the microseconds since that day's
    midnight UTC. *)
Definition days_before_year (y : Z) : Z :=
  let y' := y - 1 in y' * 365 + y' / 4 - y' / 100 + y' / 400.

Definition days_before_month (y m : Z) : Z :=
  match m with
  | 1 => 0 | 2 => 31 | 3 => 59 | 4 => 90 | 5 => 120 | 6 => 151
  | 7 => 181 | 8 => 212 | 9 => 243 | 10 => 273 | 11 => 304 | 12 => 334
  | _ => 0
  end + (if (2 <? m) && is_leap y then 1 else 0).

Definition toordinal (d : datetime) : Z :=
  days_before_year (year d) + days_before_month (year d) (month d) + day d.

Definition timestamp_us (d : datetime) : Z :=
  (((toordinal d * 24 + hour d) * 60 + minute d - default 0 (tzinfo d)) * 60
   + second d) * 1000000 + microsecond d.

(** ** Values, dictionaries and documents *)

(** The values that occur in the dictionaries of this service and in the
    BSON documents of its collection. *)
Inductive value :=
  | VStr (s : string)
  | VInt (n : Z)
  | VDatetime (d : datetime)
  | VObjectId (n : N).

Global Instance value_eq_dec : EqDecision value.
Proof. solve_decision. Defined.

(** A Python [dict] with string keys; also a stored document. *)
Abbreviation document := (gmap string value).

(** ** The pydantic models *)

Module IdeaCreate.
Record t := mk { text : string }.

(** [text: str = Field(..., max_length=280, min_length=1)]; [None] is the
    validation error of the request body. *)
Definition init (text : string) : option t :=
  if ((1 <=? String.length text)%nat && (String.length text <=? 280)%nat)%bool
  then Some (mk text) else None.

Definition dict (m : t) : document := {[ "text" := VStr (text m) ]}.
End IdeaCreate.

Module Idea.
Record t := mk {
  id : string;
  text : string;
  upvotes : Z;
  created_at : datetime
}.

(** An [Idea] built from the keyword arguments [kw]: [text] is required
    and at most 280 characters long; a field that is absent takes its
    default, where [uid] is what [str(uuid.uuid4())] returns and [now] what
    [datetime.now(timezone.utc)] returns. *)
Definition init (kw : document) (uid : string) (now : datetime) : option t :=
  text ← match kw !! "text" with
         | Some (VStr s) =>
             if (String.length s <=? 280)%nat then Some s else None
         | _ => None
         end;
  id ← match kw !! "id" with
       | None => Some uid
       | Some (VStr s) => Some s
       | Some _ => None
       end;
  upvotes ← match kw !! "upvotes" with
            | None => Some 0
            | Some (VInt n) => Some n
            | Some _ => None
            end;
  created_at ← match kw !! "created_at" with
               | None => Some now
               | Some (VDatetime d) => Some d
               | Some _ => None
               end;
  Some (mk id text upvotes created_at).

Definition dict (m : t) : document :=
  {[ "id" := VStr (id m); "text" := VStr (text m);
     "upvotes" := VInt (upvotes m); "created_at" := VDatetime (created_at m) ]}.
End Idea.

Module IdeaResponse.
Record t := mk {
  id : string;
  text : string;
  upvotes : Z;
  created_at : datetime
}.

(** An [IdeaResponse] built from the keyword arguments [kw]: the four
    fields are required, with the declared types; other keys (the driver's
    [_id]) are ignored. *)
Definition init (kw : document) : option t :=
  id ← match kw !! "id" with Some (VStr s) => Some s | _ => None end;
  text ← match kw !! "text" with Some (VStr s) => Some s | _ => None end;
  upvotes ← match kw !! "upvotes" with Some (VInt n) => Some n | _ => None end;
  created_at ← match kw !! "created_at" with
               | Some (VDatetime d) => Some d
               | _ => None
               end;
  Some (mk id text upvotes created_at).
End IdeaResponse.

Global Instance IdeaResponse_eq_dec : EqDecision IdeaResponse.t.
Proof. solve_decision. Defined.

(** ** Helpers of server.py *)

Definition prepare_for_mongo (data : document) : document :=
  match data !! "created_at" with
  | Some (VDatetime d) => <["created_at" := VStr (isoformat d)]> data
  | _ => data
  end.

(** [None]: [datetime.fromisoformat] raised. *)
Definition parse_from_mongo (item : document) : option document :=
  match item !! "created_at" with
  | Some (VStr s) =>
      d ← fromisoformat s; Some (<["created_at" := VDatetime d]> item)
  | _ => Some item
  end.

(** ** The collection [db.ideas] *)

Record database := mk_database {
  ideas : list document;   (* the documents, in natural order *)
  next_oid : N             (* source of the driver's ObjectIds *)
}.

Definition empty_db : database := mk_database [] 0.

(** [insert_one]: the driver gives the document an [_id] when it has none
    and the document goes to the end of the collection. *)
Definition insert_one (doc : document) (db : database) : database :=
  let doc' := match doc !! "_id" with
              | Some _ => doc
              | None => <["_id" := VObjectId (next_oid db)]> doc
              end in
  mk_database (ideas db ++ [doc']) (next_oid db + 1)%N.

(** BSON comparison order of the value kinds: missing or null, numbers,
    strings, ObjectId, date. *)
Definition bson_rank (v : option value) : Z :=
  match v with
  | None => 1
  | Some (VInt _) => 2
  | Some (VStr _) => 3
  | Some (VObjectId _) => 7
  | Some (VDatetime _) => 9
  end.

(** Strings compare by their bytes (the default, simple collation). *)
Definition bson_compare (a b : option value) : comparison :=
  match a, b with
  | Some (VInt x), Some (VInt y) => x ?= y
  | Some (VStr x), Some (VStr y) => String.compare x y
  | Some (VObjectId x), Some (VObjectId y) => (x ?= y)%N
  | Some (VDatetime x), Some (VDatetime y) => datetime_cmp x y
  | _, _ => bson_rank a ?= bson_rank b
  end.

(** [cursor.sort(spec)]: keys in order, direction [-1] descending. *)
Fixpoint sort_compare (spec : list (string * Z)) (a b : document) : comparison :=
  match spec with
  | [] => Eq
  | (k, dir) :: rest =>
      lex (if dir <? 0 then CompOpp (bson_compare (a !! k) (b !! k))
           else bson_compare (a !! k) (b !! k))
          (sort_compare rest a b)
  end.

Definition sort_before (spec : list (string * Z)) (a b : document) : Prop :=
  sort_compare spec a b ≠ Gt.

Global Instance sort_before_dec spec : RelDecision (sort_before spec).
Proof. intros a b. unfold sort_before. apply _. Defined.

(** What [find().sort(spec)] may return: the documents in an order that
    respects the sort keys.  The store says nothing about the order of
    documents that agree on every key, and it need not give them in the
    same order twice. *)
Definition sorts_to (spec : list (string * Z)) (docs out : list document)
  : Prop :=
  out ≡ₚ docs ∧ Sorted (sort_before spec) out.

(** One such order, the one a merge sort of the natural order produces. *)
Definition cursor_sort (spec : list (string * Z)) (docs : list document)
  : list document :=
  merge_sort (sort_before spec) docs.

(** [cursor.to_list(length)]: at most [length] documents. *)
Definition to_list (len : nat) (docs : list document) : list document :=
  take len docs.

(** The update operator [{"$inc": {field: delta}}]; [None] is the write
    error on a field that is not a number. *)
Definition inc (field : string) (delta : Z) (d : document) : option document :=
  match d !! field with
  | None => Some (<[field := VInt delta]> d)
  | Some (VInt n) => Some (<[field := VInt (n + delta)]> d)
  | Some _ => None
  end.

(** [find_one_and_update({k: v}, {"$inc": {field: delta}},
    return_document=True)]: the first document whose field [k] equals [v] is
    updated in place and the updated document returned; without a match
    nothing is written and [None] is returned.  The outer [option] is the
    driver raising. *)
Definition find_one_and_update (k : string) (v : value) (field : string)
    (delta : Z) (db : database) : option (option document * database) :=
  match list_find (λ d : document, d !! k = Some v) (ideas db) with
  | None => Some (None, db)
  | Some (i, d) =>
      d' ← inc field delta d;
      Some (Some d', mk_database (<[i := d']> (ideas db)) (next_oid db))
  end.

(** ** The handlers *)

Inductive response (A : Type) :=
  | Ok (a : A)
  | HTTPError (status_code : Z).
Arguments Ok {A} a.
Arguments HTTPError {A} status_code.

Definition sort_spec : list (string * Z) := [("upvotes", -1); ("created_at", -1)].

(** [GET /api/ideas] (server.py, lines 83 to 87). *)
Definition get_ideas (db : database)
  : response (list IdeaResponse.t) * database :=
  let ideas := to_list 1000 (cursor_sort sort_spec (ideas db)) in
  match mapM (λ idea, parse_from_mongo idea ≫= IdeaResponse.init) ideas with
  | Some out => (Ok out, db)
  | None => (HTTPError 500, db)
  end.

(** The same handler against a store that orders ties as it likes: the
    answers the handler may give. *)
Definition get_ideas_may (db : database)
    (res : response (list IdeaResponse.t) * database) : Prop :=
  ∃ cursor, sorts_to sort_spec (ideas db) cursor ∧
    res = match mapM (λ idea, parse_from_mongo idea ≫= IdeaResponse.init)
                     (to_list 1000 cursor) with
          | Some out => (Ok out, db)
          | None => (HTTPError 500, db)
          end.

(** [POST /api/ideas] (lines 89 to 96).  The framework validates the body
    against [IdeaCreate] before it calls the handler and answers 422 when
    that fails. *)
Definition create_idea (text uid : string) (now : datetime) (db : database)
  : response IdeaResponse.t * database :=
  match IdeaCreate.init text with
  | None => (HTTPError 422, db)
  | Some idea_input =>
      let idea_dict := IdeaCreate.dict idea_input in
      match Idea.init idea_dict uid now with
      | None => (HTTPError 500, db)
      | Some idea_obj =>
          let idea_data := prepare_for_mongo (Idea.dict idea_obj) in
          let db' := insert_one idea_data db in
          match IdeaResponse.init (Idea.dict idea_obj) with
          | Some r => (Ok r, db')
          | None => (HTTPError 500, db')
          end
      end
  end.

(** [PATCH /api/ideas/{idea_id}/upvote] (lines 98 to 111); [not result]
    holds of [None] and of the empty dictionary. *)
Definition upvote_idea (idea_id : string) (db : database)
  : response IdeaResponse.t * database :=
  match find_one_and_update "id" (VStr idea_id) "upvotes" 1 db with
  | None => (HTTPError 500, db)
  | Some (result, db') =>
      match result with
      | None => (HTTPError 404, db')
      | Some doc =>
          if bool_decide (doc = ∅) then (HTTPError 404, db')
          else
            match parse_from_mongo doc ≫= IdeaResponse.init with
            | Some r => (Ok r, db')
            | None => (HTTPError 500, db')
            end
      end
  end.

(** ** Requests and reachable states *)

(** What both [get_ideas] and [upvote_idea] do to a document they got from
    the store. *)
Definition to_response (doc : document) : option IdeaResponse.t :=
  parse_from_mongo doc ≫= IdeaResponse.init.

(** A request together with what the environment hands to its handler. *)
Inductive request :=
  | GetIdeas
  | CreateIdea (text uid : string) (now : datetime)
  | UpvoteIdea (idea_id : string).

Definition handle (rq : request) (db : database) : database :=
  match rq with
  | GetIdeas => snd (get_ideas db)
  | CreateIdea text uid now => snd (create_idea text uid now db)
  | UpvoteIdea idea_id => snd (upvote_idea idea_id db)
  end.

Definition run (reqs : list request) (db : database) : database :=
  foldl (λ db rq, handle rq db) db reqs.

(** The clock read by a create request is a valid UTC datetime. *)
Definition clock_of (rq : request) : Prop :=
  match rq with CreateIdea _ _ now => is_utc now = true | _ => True end.

Definition clock_ok (reqs : list request) : bool :=
  forallb (λ rq, match rq with CreateIdea _ _ now => is_utc now | _ => true end)
          reqs.

Definition reachable (db : database) : Prop :=
  ∃ reqs, clock_ok reqs = true ∧ run reqs empty_db = db.

(** The [id] fields of the stored documents, in natural order. *)
Definition doc_ids (db : database) : list (option value) :=
  (λ d : document, d !! "id") <$> ideas db.

(** Every create request of the trace drew an identifier that no stored
    document carried at that moment. *)
Fixpoint uuids_fresh (reqs : list request) (db : database) : bool :=
  match reqs with
  | [] => true
  | rq :: rest =>
      match rq with
      | CreateIdea text uid _ =>
          bool_decide (is_Some (IdeaCreate.init text) → Some (VStr uid) ∉ doc_ids db)
      | _ => true
      end && uuids_fresh rest (handle rq db)
  end.

(** The shape of a stored idea. *)
Definition stored (d : document) (r : IdeaResponse.t) : Prop :=
  (∃ oid, d !! "_id" = Some (VObjectId oid)) ∧
  d !! "id" = Some (VStr (IdeaResponse.id r)) ∧
  d !! "text" = Some (VStr (IdeaResponse.text r)) ∧
  d !! "upvotes" = Some (VInt (IdeaResponse.upvotes r)) ∧
  d !! "created_at" = Some (VStr (isoformat (IdeaResponse.created_at r))).

Definition wf_idea (r : IdeaResponse.t) : Prop :=
  (1 ≤ String.length (IdeaResponse.text r) ≤ 280)%nat ∧
  0 ≤ IdeaResponse.upvotes r ∧
  is_utc (IdeaResponse.created_at r) = true.

Definition wf_doc (d : document) : Prop := ∃ r, stored d r ∧ wf_idea r.

Definition wf_db (db : database) : Prop := Forall wf_doc (ideas db).

(** The order of the list endpoint on records: more upvotes first, and
    among equal upvotes the later [created_at] first. *)
Definition response_cmp (a b : IdeaResponse.t) : comparison :=
  lex (CompOpp (IdeaResponse.upvotes a ?= IdeaResponse.upvotes b))
      (CompOpp (datetime_cmp (IdeaResponse.created_at a)
                             (IdeaResponse.created_at b))).

Definition ranks_before (a b : IdeaResponse.t) : Prop :=
  IdeaResponse.upvotes a > IdeaResponse.upvotes b ∨
  (IdeaResponse.upvotes a = IdeaResponse.upvotes b ∧
   datetime_cmp (IdeaResponse.created_at a) (IdeaResponse.created_at b) ≠ Lt).

Definition with_upvotes (r : IdeaResponse.t) (k : Z) : IdeaResponse.t :=
  IdeaResponse.mk (IdeaResponse.id r) (IdeaResponse.text r) k
                  (IdeaResponse.created_at r).

(** The document that [create_idea] hands to the collection, once the
    driver has given it the ObjectId [oid]. *)
Definition new_document (oid : N) (uid text : string) (now : datetime)
  : document :=
  <["_id" := VObjectId oid]>
    (prepare_for_mongo (Idea.dict (Idea.mk uid text 0 now))).

Definition has_id (x : string) (d : document) : Prop :=
  d !! "id" = Some (VStr x).

Global Instance has_id_dec x d : Decision (has_id x d).
Proof. unfold has_id. apply _. Defined.

(** No document stored before position [i] carries the id [x]: document
    [i] is the one a query on that id finds first. *)
Definition first_of_id (x : string) (i : nat) (db : database) : Prop :=
  Some (VStr x) ∉ take i (doc_ids db).

(** Stored documents that the sort of [get_ideas] does not tell apart read
    back as the same record. *)
Definition ties_agree (db : database) : Prop :=
  Forall (λ d1, Forall (λ d2, sort_compare sort_spec d1 d2 = Eq →
                              to_response d1 = to_response d2) (ideas db))
         (ideas db).

(** ** A sample session *)

Definition noon : datetime := mk_datetime 2025 3 14 12 0 0 0 (Some 0).
Definition later : datetime := mk_datetime 2025 3 14 12 0 0 250000 (Some 0).

Definition tree_house_id : string := "0f8fad5b-d9cb-469f-a165-70867728950e".
Definition garden_id : string := "7c9e6679-7425-40de-944b-e07fc1f90ae7".

Definition sample_trace : list request :=
  [CreateIdea "Build a tree house" tree_house_id noon;
   CreateIdea "Plant a garden" garden_id later;
   UpvoteIdea tree_house_id].

Definition sample_db : database := run sample_trace empty_db.

(** The two documents of [sample_db]. *)
Definition tree_house_doc : document :=
  <["upvotes" := VInt 1]> (new_document 0 tree_house_id "Build a tree house" noon).

Definition garden_doc : document :=
  new_document 1 garden_id "Plant a garden" later.

(** A session of 1001 create requests, one microsecond apart from noon
    on. *)
Definition crowd_id (i : nat) : string :=
  String.append "00000000-0000-4000-8000-" (zfill 12 (Z.of_nat i)).

Definition crowd : list request :=
  (λ i : nat, CreateIdea "Yet another idea" (crowd_id i)
                (mk_datetime 2025 3 14 12 0 0 (Z.of_nat i) (Some 0)))
    <$> seq 0 1001.

Definition crowded_db : database := run crowd empty_db.

(** The idea of its first request. *)
Definition first_of_crowd : IdeaResponse.t :=
  IdeaResponse.mk (crowd_id 0) "Yet another idea" 0 noon.

(** Two create requests for which [uuid.uuid4()] returned the same string. *)
Definition twin_trace : list request :=
  [CreateIdea "Build a tree house" tree_house_id noon;
   CreateIdea "Plant a garden" tree_house_id later].

(** Two create requests that read the same clock value. *)
Definition tie_trace : list request :=
  [CreateIdea "Build a tree house" tree_house_id noon;
   CreateIdea "Plant a garden" garden_id noon].

(** The ranking scenario: A without upvotes, B and C with two upvotes
    each, C created after B. *)
Definition ranking_trace : list request :=
  [CreateIdea "A" "id-a" noon;
   CreateIdea "B" "id-b" noon;
   CreateIdea "C" "id-c" later;
   UpvoteIdea "id-b"; UpvoteIdea "id-c"; UpvoteIdea "id-b"; UpvoteIdea "id-c"].

(** ** What a session leaves in the store *)

(** The create requests of a session that pass the validation of the
    request body, as (id, text, created_at), in the order of the session. *)
Definition creations (reqs : list request)
  : list (string * string * datetime) :=
  omap (λ rq, match rq with
              | CreateIdea text uid now =>
                  m ← IdeaCreate.init text; Some (uid, IdeaCreate.text m, now)
              | _ => None
              end) reqs.

Definition identity_of (r : IdeaResponse.t) : string * string * datetime :=
  (IdeaResponse.id r, IdeaResponse.text r, IdeaResponse.created_at r).

(** The document [d] stores a well-formed idea of identity [t]. *)
Definition journal_entry (d : document) (t : string * string * datetime) : Prop :=
  ∃ r, stored d r ∧ wf_idea r ∧ identity_of r = t.

Definition upvotes_field (d : document) : Z :=
  match d !! "upvotes" with Some (VInt k) => k | _ => 0 end.

(** What the document [d] adds to the upvotes counted for the id [x]. *)
Definition counted (x : string) (d : document) : Z :=
  if decide (has_id x d) then upvotes_field d else 0.

(** The upvotes of all stored documents whose id is [x], added up. *)
Definition upvotes_for (x : string) (db : database) : Z :=
  foldr (λ d acc, counted x d + acc) 0 (ideas db).

(** How many upvote requests for [x] a session that starts in [db] answers
    with a record (status 200). *)
Fixpoint accepted_upvotes_for (x : string) (reqs : list request)
    (db : database) : Z :=
  match reqs with
  | [] => 0
  | rq :: rest =>
      match rq with
      | UpvoteIdea y =>
          if decide (y = x) then
            match fst (upvote_idea y db) with Ok _ => 1 | HTTPError _ => 0 end
          else 0
      | _ => 0
      end + accepted_upvotes_for x rest (handle rq db)
  end.

(** ** Status codes *)

Definition status_of {A} (r : response A) : Z :=
  match r with Ok _ => 200 | HTTPError status_code => status_code end.

(** The status code with which the service answers the request [rq] in the
    state [db]. *)
Definition answer (rq : request) (db : database) : Z :=
  match rq with
  | GetIdeas => status_of (fst (get_ideas db))
  | CreateIdea text uid now => status_of (fst (create_idea text uid now db))
  | UpvoteIdea idea_id => status_of (fst (upvote_idea idea_id db))
  end.

(** ** Configuration *)

(** [s.split(sep)] for a separator of one character. *)
Fixpoint split (sep : ascii) (s : string) : list string :=
  match s with
  | EmptyString => [EmptyString]
  | String c rest =>
      if Ascii.eqb c sep then EmptyString :: split sep rest
      else match split sep rest with
           | piece :: pieces => String c piece :: pieces
           | [] => [String c EmptyString]
           end
  end.

(** The number of occurrences of the character [c] in [s]. *)
Fixpoint count_char (c : ascii) (s : string) : nat :=
  match s with
  | EmptyString => 0
  | String c' rest => (if Ascii.eqb c' c then 1 else 0) + count_char c rest
  end.

(** [os.environ.get('CORS_ORIGINS', '*').split(',')] (server.py, line 119),
    the [allow_origins] handed to the CORS middleware. *)
Definition allow_origins (environ : gmap string string) : list string :=
  split "," (default "*" (environ !! "CORS_ORIGINS")).

(** ** Status checks *)

Module StatusCheckCreate.
Record t := mk { client_name : string }.

Definition dict (m : t) : document :=
  {[ "client_name" := VStr (client_name m) ]}.
End StatusCheckCreate.

Module StatusCheck.
Record t := mk {
  id : string;
  client_name : string;
  timestamp : datetime
}.

(** A [StatusCheck] built from the keyword arguments [kw]: [client_name]
    is required; an absent [id] or [timestamp] takes its default, where
    [uid] is what [str(uuid.uuid4())] returns and [now] what
    [datetime.now(timezone.utc)] returns. *)
Definition init (kw : document) (uid : string) (now : datetime) : option t :=
  id ← match kw !! "id" with
       | None => Some uid
       | Some (VStr s) => Some s
       | Some _ => None
       end;
  client_name ← match kw !! "client_name" with
                | Some (VStr s) => Some s
                | _ => None
                end;
  timestamp ← match kw !! "timestamp" with
               | None => Some now
               | Some (VDatetime d) => Some d
               | Some _ => None
               end;
  Some (mk id client_name timestamp).

Definition dict (m : t) : document :=
  {[ "id" := VStr (id m); "client_name" := VStr (client_name m);
     "timestamp" := VDatetime (timestamp m) ]}.
End StatusCheck.

(** A datetime that the driver wrote as a BSON date and read back.  A BSON
    date counts whole milliseconds since the epoch in UTC, and the client
    of server.py is created without [tz_aware], so what comes back is
    naive.  The fields are those of a datetime whose offset is zero (or
    that is naive); the service stores no other. *)
Definition bson_date (d : datetime) : datetime :=
  mk_datetime (year d) (month d) (day d) (hour d) (minute d) (second d)
              (microsecond d / 1000 * 1000) None.

Definition to_bson (doc : document) : document :=
  (λ v, match v with VDatetime d => VDatetime (bson_date d) | _ => v end)
    <$> doc.

(** The collection [db.status_checks]. *)
Record status_db := mk_status_db {
  status_checks : list document;
  status_next_oid : N
}.

Definition empty_status_db : status_db := mk_status_db [] 0.

Definition insert_status (doc : document) (db : status_db) : status_db :=
  let doc' := match doc !! "_id" with
              | Some _ => doc
              | None => <["_id" := VObjectId (status_next_oid db)]> doc
              end in
  mk_status_db (status_checks db ++ [to_bson doc']) (status_next_oid db + 1)%N.

(** [POST /api/status] (server.py, lines 70 to 75). *)
Definition create_status_check (client_name uid : string) (now : datetime)
    (db : status_db) : response StatusCheck.t * status_db :=
  let input := StatusCheckCreate.mk client_name in
  let status_dict := StatusCheckCreate.dict input in
  match StatusCheck.init status_dict uid now with
  | None => (HTTPError 500, db)
  | Some status_obj =>
      (Ok status_obj, insert_status (StatusCheck.dict status_obj) db)
  end.

(** [GET /api/status] (lines 77 to 80).  [draw i] is what the environment
    would hand to the defaults of the [i]-th object built. *)
Definition get_status_checks (draw : nat → string * datetime) (db : status_db)
  : response (list StatusCheck.t) * status_db :=
  let status_checks := to_list 1000 (status_checks db) in
  match mapM (λ x, x)
          (imap (λ i status_check,
                   StatusCheck.init status_check (draw i).1 (draw i).2)
                status_checks) with
  | Some out => (Ok out, db)
  | None => (HTTPError 500, db)
  end.

Inductive status_request :=
  | GetStatusChecks
  | CreateStatusCheck (client_name uid : string) (now : datetime).

Definition handle_status (rq : status_request) (db : status_db) : status_db :=
  match rq with
  | GetStatusChecks => db
  | CreateStatusCheck client_name uid now =>
      snd (create_status_check client_name uid now db)
  end.

Definition run_status (reqs : list status_request) (db : status_db) : status_db :=
  foldl (λ db rq, handle_status rq db) db reqs.

(** What the create requests of a session make the listing show. *)
Definition status_journal (reqs : list status_request) : list StatusCheck.t :=
  omap (λ rq, match rq with
              | CreateStatusCheck client_name uid now =>
                  Some (StatusCheck.mk uid client_name (bson_date now))
              | GetStatusChecks => None
              end) reqs.

Definition status_clock_ok (reqs : list status_request) : bool :=
  forallb (λ rq, match rq with
                 | CreateStatusCheck _ _ now => is_utc now
                 | GetStatusChecks => true
                 end) reqs.

(** The document [d] stores the status check [r]. *)
Definition stored_status (d : document) (r : StatusCheck.t) : Prop :=
  d !! "id" = Some (VStr (StatusCheck.id r)) ∧
  d !! "client_name" = Some (VStr (StatusCheck.client_name r)) ∧
  d !! "timestamp" = Some (VDatetime (StatusCheck.timestamp r)).

(** A session of status checks of two clients. *)
Definition status_session : list status_request :=
  [CreateStatusCheck "frontend" tree_house_id noon;
   GetStatusChecks;
   CreateStatusCheck "" garden_id later].

(** ** The API tester (backend_test.py) *)

(** [GET /api/] (server.py, lines 65 to 67). *)
Definition root : response string := Ok "Idea Board API is running!".

(** [all(upvotes[i] >= upvotes[i+1] for i in range(len(upvotes)-1))]. *)
Fixpoint is_sorted (upvotes : list Z) : bool :=
  match upvotes with
  | a :: (b :: _) as rest => (b <=? a) && is_sorted rest
  | _ => true
  end.

(** The class [IdeaBoardAPITester].  A test method gets the database of the
    server it talks to and returns it as the request left it; the transport
    delivers every request to its handler and every response to the
    tester. *)
Module Tester.
Record t := mk {
  tests_run : nat;
  tests_passed : nat;
  created_idea_ids : list string
}.

Definition init : t := mk 0 0 [].

(** [run_test], once the response [resp] has arrived: the pair of the
    success flag and the body, and the tester with its counters moved.  The
    body of an error response carries no field of an idea and is [None]. *)
Definition run_test {A} (expected_status : Z) (resp : response A) (self : t)
  : bool * option A * t :=
  let self := mk (S (tests_run self)) (tests_passed self) (created_idea_ids self) in
  if status_of resp =? expected_status then
    (true, match resp with Ok a => Some a | HTTPError _ => None end,
     mk (tests_run self) (S (tests_passed self)) (created_idea_ids self))
  else (false, None, self).

Definition test_api_root (self : t) : bool * option string * t :=
  run_test 200 root self.

Definition test_get_ideas_empty (self : t) (db : database)
  : bool * option (list IdeaResponse.t) * t * database :=
  let '(resp, db) := get_ideas db in
  (run_test 200 resp self, db).

Definition test_create_idea (text uid : string) (now : datetime) (self : t)
    (db : database) : bool * option IdeaResponse.t * t * database :=
  let '(resp, db) := create_idea text uid now db in
  let '(success, response, self) := run_test 200 resp self in
  let self :=
    match success, response with
    | true, Some r =>
        mk (tests_run self) (tests_passed self)
           (created_idea_ids self ++ [IdeaResponse.id r])
    | _, _ => self
    end in
  (success, response, self, db).

Definition long_text : string :=
  string_of_list_ascii (replicate 281 "a"%char).

Definition test_create_idea_validation (draw1 draw2 : string * datetime)
    (self : t) (db : database) : bool * t * database :=
  let '(resp, db) := create_idea "" draw1.1 draw1.2 db in
  let '(success1, _, self) := run_test 422 resp self in
  let '(resp, db) := create_idea long_text draw2.1 draw2.2 db in
  let '(success2, _, self) := run_test 422 resp self in
  (success1 && success2, self, db).

Definition test_upvote_idea (idea_id : string) (self : t) (db : database)
  : bool * option IdeaResponse.t * t * database :=
  let '(resp, db) := upvote_idea idea_id db in
  (run_test 200 resp self, db).

Definition fake_id : string := "non-existent-id-12345".

Definition test_upvote_nonexistent_idea (self : t) (db : database)
  : bool * option IdeaResponse.t * t * database :=
  let '(resp, db) := upvote_idea fake_id db in
  (run_test 404 resp self, db).

(** Besides the result of [run_test]: what the method prints as "Sorted by
    upvotes", when it prints it. *)
Definition test_get_ideas_after_creation (self : t) (db : database)
  : bool * option (list IdeaResponse.t) * option bool * t * database :=
  let '(resp, db) := get_ideas db in
  let '(success, response, self) := run_test 200 resp self in
  let printed :=
    match success, response with
    | true, Some ((_ :: _) as ideas) =>
        Some (is_sorted (IdeaResponse.upvotes <$> ideas))
    | _, _ => None
    end in
  (success, response, printed, self, db).
End Tester.

Definition test_ideas : list string :=
  ["Build a sustainable city on Mars with renewable energy sources";
   "Create an AI-powered personal health assistant that monitors vitals 24/7";
   "Develop a blockchain-based voting system for transparent elections";
   "Design floating gardens for urban food production in small spaces"].

(** The loop of [main] over [test_ideas]; [draw i] is what the server draws
    for the [i]-th request that reaches a handler with defaults. *)
Fixpoint create_test_ideas (texts : list string) (i : nat)
    (draw : nat → string * datetime) (created_ideas : list IdeaResponse.t)
    (tester : Tester.t) (db : database)
  : list IdeaResponse.t * Tester.t * database :=
  match texts with
  | [] => (created_ideas, tester, db)
  | idea_text :: rest =>
      let '(success, response, tester, db) :=
        Tester.test_create_idea idea_text (draw i).1 (draw i).2 tester db in
      let created_ideas :=
        match success, response with
        | true, Some r => created_ideas ++ [r]
        | _, _ => created_ideas
        end in
      create_test_ideas rest (S i) draw created_ideas tester db
  end.

Fixpoint upvote_times (n : nat) (idea_id : string) (tester : Tester.t)
    (db : database) : Tester.t * database :=
  match n with
  | O => (tester, db)
  | S n =>
      let '(_, _, tester, db) := Tester.test_upvote_idea idea_id tester db in
      upvote_times n idea_id tester db
  end.

(** [main] of backend_test.py: the exit code, what the last test prints
    about the order, the tester and the database of the server. *)
Definition tester_main (draw : nat → string * datetime) (db : database)
  : Z * option bool * Tester.t * database :=
  let tester := Tester.init in
  let '(_, _, tester) := Tester.test_api_root tester in
  let '(_, _, tester, db) := Tester.test_get_ideas_empty tester db in
  let '(created_ideas, tester, db) :=
    create_test_ideas test_ideas 0 draw [] tester db in
  let '(_, tester, db) :=
    Tester.test_create_idea_validation (draw 4%nat) (draw 5%nat) tester db in
  let '(tester, db) :=
    match created_ideas with
    | [] => (tester, db)
    | first :: others =>
        let '(tester, db) :=
          upvote_times 3 (IdeaResponse.id first) tester db in
        match others with
        | second :: _ =>
            let '(_, _, tester, db) :=
              Tester.test_upvote_idea (IdeaResponse.id second) tester db in
            (tester, db)
        | [] => (tester, db)
        end
    end in
  let '(_, _, tester, db) := Tester.test_upvote_nonexistent_idea tester db in
  let '(_, _, printed, tester, db) :=
    Tester.test_get_ideas_after_creation tester db in
  (if (Tester.tests_passed tester =? Tester.tests_run tester)%nat then 0 else 1,
   printed, tester, db).

Definition test_draw (i : nat) : string * datetime :=
  (zfill 36 (Z.of_nat i), later).

(** * Proofs *)

(** ** Comparison functions *)

Lemma lex_Eq_r c : lex c Eq = c.
Proof. by destruct c. Qed.

Lemma lex_CompOpp c1 c2 : CompOpp (lex c1 c2) = lex (CompOpp c1) (CompOpp c2).
Proof. by destruct c1. Qed.

Section comparator.
Context {A : Type} (cmp : A → A → comparison) `{!Comparator cmp}.

Lemma cmp_eq_r a b c : cmp b c = Eq → cmp a b = cmp a c.
Proof.
  intros Hbc. rewrite (cmp_antisym (cmp:=cmp) b a), (cmp_antisym (cmp:=cmp) c a). f_equal.
  symmetry. apply cmp_eq_l. rewrite (cmp_antisym (cmp:=cmp) b c), Hbc. done.
Qed.

Lemma cmp_gt_trans a b c : cmp a b = Gt → cmp b c = Gt → cmp a c = Gt.
Proof.
  intros Hab Hbc.
  assert (cmp c a = Lt) as Hca.
  { apply (cmp_lt_trans (cmp:=cmp) c b a).
    - by rewrite (cmp_antisym (cmp:=cmp) b c), Hbc.
    - by rewrite (cmp_antisym (cmp:=cmp) a b), Hab. }
  by rewrite (cmp_antisym (cmp:=cmp) c a), Hca.
Qed.

Lemma cmp_not_Gt_trans a b c : cmp a b ≠ Gt → cmp b c ≠ Gt → cmp a c ≠ Gt.
Proof.
  intros Hab Hbc.
  destruct (cmp a b) eqn:E1; [| |done].
  - by rewrite (cmp_eq_l (cmp:=cmp) a b c E1).
  - destruct (cmp b c) eqn:E2; [| |done].
    + by rewrite <- (cmp_eq_r a b c E2), E1.
    + by rewrite (cmp_lt_trans (cmp:=cmp) a b c E1 E2).
Qed.

End comparator.

Global Instance Comparator_proj {A} (f : A → Z) :
  Comparator (λ a b, f a ?= f b).
Proof.
  split.
  - intros a b. apply Z.compare_antisym.
  - intros a b c H. simpl in *. apply Z.compare_eq in H. by rewrite H.
  - intros a b c H1 H2. simpl in *.
    rewrite Z.compare_lt_iff in *. lia.
Qed.

Global Instance Comparator_opp {A} (cmp : A → A → comparison) :
  Comparator cmp → Comparator (λ a b, CompOpp (cmp a b)).
Proof.
  intros H. split.
  - intros a b. by rewrite (cmp_antisym (cmp:=cmp) a b).
  - intros a b c Hab. f_equal. apply (cmp_eq_l (cmp:=cmp)).
    destruct (cmp a b); done.
  - intros a b c Hab Hbc.
    rewrite (cmp_gt_trans cmp a b c); [done| |].
    + destruct (cmp a b); done.
    + destruct (cmp b c); done.
Qed.

Global Instance Comparator_lex {A} (cmp1 cmp2 : A → A → comparison) :
  Comparator cmp1 → Comparator cmp2 →
  Comparator (λ a b, lex (cmp1 a b) (cmp2 a b)).
Proof.
  intros H1 H2. split.
  - intros a b. by rewrite lex_CompOpp, (cmp_antisym (cmp:=cmp1) a b), (cmp_antisym (cmp:=cmp2) a b).
  - intros a b c Hab.
    destruct (cmp1 a b) eqn:E1; simpl in Hab; try done.
    by rewrite (cmp_eq_l (cmp:=cmp1) a b c E1), (cmp_eq_l (cmp:=cmp2) a b c Hab).
  - intros a b c Hab Hbc.
    destruct (cmp1 a b) eqn:E1; simpl in Hab; try done.
    + rewrite (cmp_eq_l (cmp:=cmp1) a b c E1).
      destruct (cmp1 b c) eqn:E2; simpl in *; try done.
      by apply (cmp_lt_trans (cmp:=cmp2) a b c).
    + destruct (cmp1 b c) eqn:E2; simpl in Hbc; try done.
      * by rewrite <- (cmp_eq_r cmp1 a b c E2), E1.
      * by rewrite (cmp_lt_trans (cmp:=cmp1) a b c E1 E2).
Qed.

Global Instance Comparator_datetime_cmp : Comparator datetime_cmp.
Proof. unfold datetime_cmp. apply _. Qed.

Global Instance Comparator_response_cmp : Comparator response_cmp.
Proof.
  unfold response_cmp.
  apply (Comparator_lex
           (λ a b, CompOpp (IdeaResponse.upvotes a ?= IdeaResponse.upvotes b))
           (λ a b, CompOpp (datetime_cmp (IdeaResponse.created_at a)
                                         (IdeaResponse.created_at b)))).
  - apply _.
  - apply Comparator_opp. split.
    + intros a b. apply (cmp_antisym (cmp:=datetime_cmp)).
    + intros a b c. apply (cmp_eq_l (cmp:=datetime_cmp)).
    + intros a b c. apply (cmp_lt_trans (cmp:=datetime_cmp)).
Qed.

(** ** Strings and decimal fields *)

Lemma app_String c s t : String c s +:+ t = String c (s +:+ t).
Proof. reflexivity. Qed.

Lemma app_empty s : "" +:+ s = s.
Proof. reflexivity. Qed.

Lemma app_assoc_string (s t u : string) : (s +:+ t) +:+ u = s +:+ (t +:+ u).
Proof. induction s as [|c s IH]; [done|]. by rewrite !app_String, IH. Qed.

Lemma string_compare_refl s : String.compare s s = Eq.
Proof.
  induction s as [|c s IH]; simpl; [done|].
  unfold Ascii.compare. by rewrite N.compare_refl.
Qed.

Lemma compare_app u v x y :
  String.length u = String.length v →
  String.compare (u +:+ x) (v +:+ y)
  = lex (String.compare u v) (String.compare x y).
Proof.
  revert v. induction u as [|a u IH]; intros [|b v] Hlen; simplify_eq/=; [done|].
  destruct (Ascii.compare a b); simpl; [auto|done..].
Qed.

Lemma compare_app_same u x y :
  String.compare (u +:+ x) (u +:+ y) = String.compare x y.
Proof. by rewrite compare_app, string_compare_refl. Qed.

Lemma pow10_pos w : 0 < 10 ^ Z.of_nat w.
Proof. apply Z.pow_pos_nonneg; lia. Qed.

Lemma pow10_succ w : 10 ^ Z.of_nat (S w) = 10 * 10 ^ Z.of_nat w.
Proof. rewrite Nat2Z.inj_succ, Z.pow_succ_r; lia. Qed.

Lemma digit_val_char d : 0 ≤ d ≤ 9 → digit_val (digit_char d) = Some d.
Proof.
  intros Hd. unfold digit_val, digit_char.
  rewrite N_ascii_embedding by lia.
  rewrite N2Z.inj_add, Z2N.id by lia. simpl Z.of_N.
  destruct (48 <=? 48 + d) eqn:E1; [|lia].
  destruct (48 + d <=? 57) eqn:E2; [|lia].
  simpl. f_equal. lia.
Qed.

Lemma digit_char_compare a b :
  0 ≤ a ≤ 9 → 0 ≤ b ≤ 9 →
  Ascii.compare (digit_char a) (digit_char b) = (a ?= b).
Proof.
  intros Ha Hb. unfold Ascii.compare, digit_char.
  rewrite !N_ascii_embedding by lia.
  rewrite <- N2Z.inj_compare, !N2Z.inj_add, !Z2N.id by lia. simpl Z.of_N.
  destruct (Z.compare_spec a b), (Z.compare_spec (48 + a) (48 + b)); lia || done.
Qed.

Lemma compare_divmod p n m :
  0 < p → (n ?= m) = lex (n / p ?= m / p) (n mod p ?= m mod p).
Proof.
  intros Hp.
  pose proof (Z.div_mod n p ltac:(lia)) as Hn.
  pose proof (Z.div_mod m p ltac:(lia)) as Hm.
  pose proof (Z.mod_pos_bound n p Hp).
  pose proof (Z.mod_pos_bound m p Hp).
  destruct (Z.compare_spec (n / p) (m / p)) as [E|E|E]; simpl.
  - destruct (Z.compare_spec n m), (Z.compare_spec (n mod p) (m mod p));
      done || nia.
  - apply Z.compare_lt_iff. nia.
  - apply Z.compare_gt_iff. nia.
Qed.

Lemma digit_of_field w n :
  0 ≤ n < 10 ^ Z.of_nat (S w) →
  0 ≤ n / 10 ^ Z.of_nat w ≤ 9 ∧ (n / 10 ^ Z.of_nat w) mod 10 = n / 10 ^ Z.of_nat w
  ∧ 0 ≤ n mod 10 ^ Z.of_nat w < 10 ^ Z.of_nat w.
Proof.
  intros Hn. rewrite pow10_succ in Hn. pose proof (pow10_pos w) as Hp.
  assert (0 ≤ n / 10 ^ Z.of_nat w ≤ 9) as Hq.
  { split; [apply Z.div_pos; lia|].
    apply Z.lt_succ_r. apply Z.div_lt_upper_bound; lia. }
  split; [done|]. split; [apply Z.mod_small; lia|].
  apply Z.mod_pos_bound. done.
Qed.

Lemma length_zfill w n : String.length (zfill w n) = w.
Proof. revert n. induction w as [|w IH]; intros n; simpl; [done|]. by rewrite IH. Qed.

Lemma zfill_compare w n m :
  0 ≤ n < 10 ^ Z.of_nat w → 0 ≤ m < 10 ^ Z.of_nat w →
  String.compare (zfill w n) (zfill w m) = (n ?= m).
Proof.
  revert n m. induction w as [|w IH]; intros n m Hn Hm.
  - simpl in *. assert (n = m) as -> by lia. by rewrite Z.compare_refl.
  - destruct (digit_of_field w n Hn) as (Hq1 & E1 & Hr1).
    destruct (digit_of_field w m Hm) as (Hq2 & E2 & Hr2).
    cbn [zfill String.compare]. rewrite E1, E2.
    rewrite digit_char_compare by done.
    rewrite (compare_divmod (10 ^ Z.of_nat w) n m) by apply pow10_pos.
    rewrite IH by done. unfold lex. by destruct (_ ?= _).
Qed.

Lemma read_digits_zfill w acc n rest :
  0 ≤ n < 10 ^ Z.of_nat w →
  read_digits w acc (zfill w n +:+ rest) = Some (acc * 10 ^ Z.of_nat w + n, rest).
Proof.
  revert acc n. induction w as [|w IH]; intros acc n Hn.
  - simpl in *. rewrite app_empty. do 2 f_equal. lia.
  - destruct (digit_of_field w n Hn) as (Hq & E & Hr).
    cbn [zfill]. rewrite app_String. cbn [read_digits].
    rewrite E, digit_val_char by done. rewrite IH by done.
    do 2 f_equal. rewrite pow10_succ.
    pose proof (Z.div_mod n (10 ^ Z.of_nat w)) as Hdm.
    pose proof (pow10_pos w). nia.
Qed.

(** ** isoformat and fromisoformat *)

Lemma in_range_spec lo hi x : in_range lo hi x = true ↔ lo ≤ x ≤ hi.
Proof. unfold in_range. rewrite andb_true_iff, !Z.leb_le. done. Qed.

Lemma days_in_month_le y m : days_in_month y m ≤ 31.
Proof. unfold days_in_month. repeat case_match; lia. Qed.

Lemma valid_datetime_bounds d :
  valid_datetime d = true →
  1 ≤ year d ≤ 9999 ∧ 1 ≤ month d ≤ 12 ∧ 1 ≤ day d ≤ 31 ∧
  0 ≤ hour d ≤ 23 ∧ 0 ≤ minute d ≤ 59 ∧ 0 ≤ second d ≤ 59 ∧
  0 ≤ microsecond d ≤ 999999 ∧
  (∀ off, tzinfo d = Some off → -1439 ≤ off ≤ 1439).
Proof.
  unfold valid_datetime. rewrite !andb_true_iff, !in_range_spec.
  intros [[[[[[[??]?]?]?]?]?] Htz].
  pose proof (days_in_month_le (year d) (month d)).
  repeat split; try lia.
  all: match goal with
       | H : tzinfo _ = Some _ |- _ =>
           rewrite H in Htz; apply in_range_spec in Htz; lia
       end.
Qed.

Lemma is_utc_spec d :
  is_utc d = true ↔ valid_datetime d = true ∧ tzinfo d = Some 0.
Proof. unfold is_utc. rewrite andb_true_iff, bool_decide_eq_true. done. Qed.

Lemma expect_String c rest : expect c (String c rest) = Some rest.
Proof. unfold expect. by rewrite Ascii.eqb_refl. Qed.

Lemma read_offset_format tz :
  (∀ off, tz = Some off → -1439 ≤ off ≤ 1439) →
  read_offset (format_offset tz) = Some tz.
Proof.
  intros Htz. destruct tz as [off|]; [|done].
  specialize (Htz off eq_refl). unfold format_offset, read_offset.
  assert (0 ≤ Z.abs off / 60 < 10 ^ Z.of_nat 2) as Hh.
  { split; [apply Z.div_pos; lia|]. apply Z.div_lt_upper_bound; lia. }
  assert (0 ≤ Z.abs off mod 60 < 60) as Hm by (apply Z.mod_pos_bound; lia).
  pose proof (Z.div_mod (Z.abs off) 60 ltac:(lia)) as Hdm.
  assert (read_digits 2 0 (zfill 2 (Z.abs off / 60) +:+ ":" +:+ zfill 2 (Z.abs off mod 60))
          = Some (Z.abs off / 60, ":" +:+ zfill 2 (Z.abs off mod 60))) as E1.
  { rewrite read_digits_zfill by done. do 2 f_equal. }
  assert (read_digits 2 0 (zfill 2 (Z.abs off mod 60))
          = Some (Z.abs off mod 60, "")) as E2.
  { replace (zfill 2 (Z.abs off mod 60)) with (zfill 2 (Z.abs off mod 60) +:+ "").
    - rewrite read_digits_zfill; [done|]. change (10 ^ Z.of_nat 2) with 100. lia.
    - generalize (zfill 2 (Z.abs off mod 60)). intros s.
      induction s as [|c s IH]; [done|]. by rewrite app_String, IH. }
  destruct (off <? 0) eqn:Hneg.
  - change (Ascii.eqb "-" "+" || Ascii.eqb "-" "-") with true. cbv iota.
    rewrite E1. cbn [mbind option_bind]. rewrite app_String, app_empty, expect_String.
    cbn [mbind option_bind]. rewrite E2. cbn [mbind option_bind].
    destruct (Z.abs off mod 60 <? 60) eqn:E3; [|lia].
    change (Ascii.eqb "-" "-") with true. cbv iota. do 2 f_equal. lia.
  - change (Ascii.eqb "+" "+" || Ascii.eqb "+" "-") with true. cbv iota.
    rewrite E1. cbn [mbind option_bind]. rewrite app_String, app_empty, expect_String.
    cbn [mbind option_bind]. rewrite E2. cbn [mbind option_bind].
    destruct (Z.abs off mod 60 <? 60) eqn:E3; [|lia].
    change (Ascii.eqb "+" "-") with false. cbv iota. do 2 f_equal. lia.
Qed.

Lemma read_fraction_format us tz rest :
  0 ≤ us ≤ 999999 →
  rest = format_offset tz →
  read_fraction ((if us =? 0 then "" else "." +:+ zfill 6 us) +:+ rest)
  = Some (us, rest).
Proof.
  intros Hus ->. destruct (us =? 0) eqn:E.
  - apply Z.eqb_eq in E as ->. rewrite app_empty.
    destruct tz as [off|]; [|done].
    unfold format_offset. by destruct (off <? 0).
  - rewrite app_assoc_string, app_String, app_empty. cbn [read_fraction].
    rewrite read_digits_zfill; [done|]. change (10 ^ Z.of_nat 6) with 1000000. lia.
Qed.

Lemma fromisoformat_isoformat d :
  valid_datetime d = true → fromisoformat (isoformat d) = Some d.
Proof.
  intros Hv.
  destruct (valid_datetime_bounds d Hv) as (Hy & Hmo & Hd & Hh & Hmi & Hs & Hus & Htz).
  unfold fromisoformat, isoformat.
  rewrite read_digits_zfill by (change (10 ^ Z.of_nat 4) with 10000; lia).
  cbn [mbind option_bind]. rewrite app_String, app_empty, expect_String.
  cbn [mbind option_bind].
  rewrite read_digits_zfill by (change (10 ^ Z.of_nat 2) with 100; lia).
  cbn [mbind option_bind]. rewrite app_String, app_empty, expect_String.
  cbn [mbind option_bind].
  rewrite read_digits_zfill by (change (10 ^ Z.of_nat 2) with 100; lia).
  cbn [mbind option_bind]. rewrite app_String, app_empty.
  rewrite read_digits_zfill by (change (10 ^ Z.of_nat 2) with 100; lia).
  cbn [mbind option_bind]. rewrite app_String, app_empty, expect_String.
  cbn [mbind option_bind].
  rewrite read_digits_zfill by (change (10 ^ Z.of_nat 2) with 100; lia).
  cbn [mbind option_bind]. rewrite app_String, app_empty, expect_String.
  cbn [mbind option_bind].
  rewrite read_digits_zfill by (change (10 ^ Z.of_nat 2) with 100; lia).
  cbn [mbind option_bind].
  rewrite (read_fraction_format _ (tzinfo d)) by done.
  cbn [mbind option_bind]. rewrite read_offset_format by done.
  cbn [mbind option_bind]. rewrite !Z.mul_0_l, !Z.add_0_l.
  destruct d as [y mo dd hh mi ss us tz]. simpl in *. by rewrite Hv.
Qed.

Lemma fraction_compare ua ub :
  0 ≤ ua ≤ 999999 → 0 ≤ ub ≤ 999999 →
  String.compare
    ((if ua =? 0 then "" else "." +:+ zfill 6 ua) +:+ format_offset (Some 0))
    ((if ub =? 0 then "" else "." +:+ zfill 6 ub) +:+ format_offset (Some 0))
  = (ua ?= ub).
Proof.
  intros Ha Hb.
  destruct (ua =? 0) eqn:Ea, (ub =? 0) eqn:Eb.
  - apply Z.eqb_eq in Ea as ->, Eb as ->. by rewrite string_compare_refl.
  - apply Z.eqb_eq in Ea as ->. apply Z.eqb_neq in Eb.
    rewrite app_empty, app_assoc_string, app_String.
    rewrite (proj2 (Z.compare_lt_iff 0 ub)) by lia. reflexivity.
  - apply Z.eqb_eq in Eb as ->. apply Z.eqb_neq in Ea.
    rewrite app_empty, app_assoc_string, app_String.
    rewrite (proj2 (Z.compare_gt_iff ua 0)) by lia. reflexivity.
  - rewrite !app_assoc_string. rewrite compare_app_same.
    rewrite compare_app by (by rewrite !length_zfill).
    rewrite string_compare_refl, lex_Eq_r.
    apply zfill_compare; change (10 ^ Z.of_nat 6) with 1000000; lia.
Qed.

Lemma isoformat_compare a b :
  is_utc a = true → is_utc b = true →
  String.compare (isoformat a) (isoformat b) = datetime_cmp a b.
Proof.
  intros [Hva Hza]%is_utc_spec [Hvb Hzb]%is_utc_spec.
  destruct (valid_datetime_bounds a Hva) as (? & ? & ? & ? & ? & ? & ? & _).
  destruct (valid_datetime_bounds b Hvb) as (? & ? & ? & ? & ? & ? & ? & _).
  unfold isoformat, datetime_cmp. rewrite Hza, Hzb.
  rewrite compare_app by (by rewrite !length_zfill).
  rewrite zfill_compare by (change (10 ^ Z.of_nat 4) with 10000; lia).
  f_equal. rewrite compare_app_same.
  do 4 (rewrite compare_app by (by rewrite !length_zfill);
        rewrite zfill_compare by (change (10 ^ Z.of_nat 2) with 100; lia);
        f_equal; rewrite compare_app_same).
  rewrite compare_app by (by rewrite !length_zfill).
  rewrite zfill_compare by (change (10 ^ Z.of_nat 2) with 100; lia).
  f_equal. by apply fraction_compare.
Qed.

(** The offset of a UTC timestamp is always printed as [+00:00]. *)
Lemma isoformat_utc_suffix d :
  is_utc d = true → ∃ prefix, isoformat d = prefix +:+ "+00:00".
Proof.
  intros [_ Hz]%is_utc_spec. unfold isoformat. rewrite Hz.
  exists (zfill 4 (year d) +:+ "-" +:+ zfill 2 (month d) +:+ "-"
          +:+ zfill 2 (day d) +:+ "T" +:+ zfill 2 (hour d) +:+ ":"
          +:+ zfill 2 (minute d) +:+ ":" +:+ zfill 2 (second d)
          +:+ (if microsecond d =? 0 then "" else "." +:+ zfill 6 (microsecond d))).
  by rewrite !app_assoc_string.
Qed.

(** ** Chronological order *)

Lemma radix_compare B ha la hb lb :
  0 ≤ la < B → 0 ≤ lb < B →
  (ha * B + la ?= hb * B + lb) = lex (ha ?= hb) (la ?= lb).
Proof.
  intros Ha Hb. destruct (Z.compare_spec ha hb) as [->|Hlt|Hgt]; simpl.
  - destruct (Z.compare_spec la lb), (Z.compare_spec (hb * B + la) (hb * B + lb));
      done || lia.
  - apply Z.compare_lt_iff. nia.
  - apply Z.compare_gt_iff. nia.
Qed.

Lemma is_leap_spec y :
  is_leap y = true ↔ y mod 4 = 0 ∧ (y mod 100 ≠ 0 ∨ y mod 400 = 0).
Proof.
  unfold is_leap. rewrite andb_true_iff, orb_true_iff, negb_true_iff.
  rewrite !Z.eqb_eq, Z.eqb_neq. done.
Qed.

Lemma days_before_year_succ y :
  days_before_year (y + 1)
  = days_before_year y + 365 + (if is_leap y then 1 else 0).
Proof.
  unfold days_before_year. cbv zeta.
  replace (y + 1 - 1) with (y - 1 + 1) by lia.
  destruct (is_leap y) eqn:E.
  - apply is_leap_spec in E. Z.div_mod_to_equations. lia.
  - assert (¬ (y mod 4 = 0 ∧ (y mod 100 ≠ 0 ∨ y mod 400 = 0))) as E'.
    { rewrite <- is_leap_spec. by rewrite E. }
    Z.div_mod_to_equations. lia.
Qed.

Lemma days_before_year_mono y1 y2 :
  y1 ≤ y2 → days_before_year y1 ≤ days_before_year y2.
Proof.
  intros Hle. replace y2 with (y1 + Z.of_nat (Z.to_nat (y2 - y1))) by lia.
  induction (Z.to_nat (y2 - y1)) as [|n IH]; [by rewrite Z.add_0_r|].
  rewrite Nat2Z.inj_succ.
  replace (y1 + Z.succ (Z.of_nat n)) with (y1 + Z.of_nat n + 1) by lia.
  rewrite days_before_year_succ. destruct (is_leap _); lia.
Qed.

Lemma month_cases m :
  1 ≤ m ≤ 12 →
  m = 1 ∨ m = 2 ∨ m = 3 ∨ m = 4 ∨ m = 5 ∨ m = 6 ∨
  m = 7 ∨ m = 8 ∨ m = 9 ∨ m = 10 ∨ m = 11 ∨ m = 12.
Proof. lia. Qed.

(** The last day of month [m] is the day before the first of the next. *)
Lemma days_before_month_next y m d :
  1 ≤ m ≤ 12 → 1 ≤ d ≤ days_in_month y m →
  0 ≤ days_before_month y m ∧
  days_before_month y m + d
  ≤ (if m =? 12 then 365 + (if is_leap y then 1 else 0)
     else days_before_month y (m + 1)).
Proof.
  intros Hm Hd. unfold days_in_month, days_before_month in *.
  destruct (month_cases m Hm) as [->|[->|[->|[->|[->|[->|[->|[->|[->|[->|[->| ->]]]]]]]]]]];
    simpl in *; destruct (is_leap y); simpl in *; lia.
Qed.

Lemma days_before_month_mono y m1 m2 :
  1 ≤ m1 → m1 ≤ m2 → m2 ≤ 12 →
  days_before_month y m1 ≤ days_before_month y m2.
Proof.
  intros H1 H12 H2. unfold days_before_month.
  destruct (month_cases m1 ltac:(lia)) as [->|[->|[->|[->|[->|[->|[->|[->|[->|[->|[->| ->]]]]]]]]]]];
  destruct (month_cases m2 ltac:(lia)) as [->|[->|[->|[->|[->|[->|[->|[->|[->|[->|[->| ->]]]]]]]]]]];
    try lia; simpl; destruct (is_leap y); simpl; lia.
Qed.

Lemma valid_date_bounds d :
  valid_datetime d = true →
  1 ≤ year d ∧ 1 ≤ month d ≤ 12 ∧
  1 ≤ day d ≤ days_in_month (year d) (month d).
Proof.
  unfold valid_datetime. rewrite !andb_true_iff, !in_range_spec.
  intros [[[[[[[??]?]?]?]?]?] _]. lia.
Qed.

Lemma toordinal_compare a b :
  valid_datetime a = true → valid_datetime b = true →
  (toordinal a ?= toordinal b)
  = lex (year a ?= year b) (lex (month a ?= month b) (day a ?= day b)).
Proof.
  intros (Hya & Hma & Hda)%valid_date_bounds (Hyb & Hmb & Hdb)%valid_date_bounds.
  unfold toordinal.
  destruct (days_before_month_next _ _ _ Hma Hda) as [Hna Hea].
  destruct (days_before_month_next _ _ _ Hmb Hdb) as [Hnb Heb].
  assert (∀ y m d, 1 ≤ m ≤ 12 → 1 ≤ d ≤ days_in_month y m →
            days_before_month y m + d ≤ 365 + (if is_leap y then 1 else 0))
    as Hyear.
  { intros y m d Hm Hd. destruct (days_before_month_next y m d Hm Hd) as [_ H].
    destruct (Z.eqb_spec m 12) as [->|Hne]; [done|].
    pose proof (days_before_month_mono y (m + 1) 12 ltac:(lia) ltac:(lia) ltac:(lia)) as Hmono.
    assert (days_before_month y 12 ≤ 334 + (if is_leap y then 1 else 0)).
    { unfold days_before_month. simpl. by destruct (is_leap y). }
    destruct (is_leap y); lia. }
  assert (∀ y m1 d1 m2 d2, 1 ≤ m1 → m1 < m2 → m2 ≤ 12 →
            1 ≤ d1 ≤ days_in_month y m1 → 1 ≤ d2 →
            days_before_month y m1 + d1 < days_before_month y m2 + d2) as Hmonth.
  { intros y m1 d1 m2 d2 H1 H12 H2 Hd1 Hd2.
    destruct (days_before_month_next y m1 d1 ltac:(lia) Hd1) as [_ H].
    destruct (Z.eqb_spec m1 12) as [->|Hne]; [lia|].
    pose proof (days_before_month_mono y (m1 + 1) m2 ltac:(lia) ltac:(lia) ltac:(lia)).
    lia. }
  destruct (Z.compare_spec (year a) (year b)) as [Hy|Hy|Hy]; simpl.
  - rewrite Hy in *.
    destruct (Z.compare_spec (month a) (month b)) as [Hm|Hm|Hm]; simpl.
    + rewrite Hm.
      destruct (Z.compare_spec (day a) (day b)),
        (Z.compare_spec (days_before_year (year b) + days_before_month (year b) (month b) + day a)
                        (days_before_year (year b) + days_before_month (year b) (month b) + day b));
        done || lia.
    + apply Z.compare_lt_iff.
      pose proof (Hmonth (year b) (month a) (day a) (month b) (day b)). lia.
    + apply Z.compare_gt_iff.
      pose proof (Hmonth (year b) (month b) (day b) (month a) (day a)). lia.
  - apply Z.compare_lt_iff.
    pose proof (Hyear _ _ _ Hma Hda).
    pose proof (days_before_year_succ (year a)).
    pose proof (days_before_year_mono (year a + 1) (year b) ltac:(lia)). lia.
  - apply Z.compare_gt_iff.
    pose proof (Hyear _ _ _ Hmb Hdb).
    pose proof (days_before_year_succ (year b)).
    pose proof (days_before_year_mono (year b + 1) (year a) ltac:(lia)). lia.
Qed.

(** On UTC datetimes the field-wise comparison is the comparison of the
    instants. *)
Lemma datetime_cmp_timestamp a b :
  is_utc a = true → is_utc b = true →
  datetime_cmp a b = (timestamp_us a ?= timestamp_us b).
Proof.
  intros [Hva Hza]%is_utc_spec [Hvb Hzb]%is_utc_spec.
  destruct (valid_datetime_bounds a Hva) as (_ & _ & _ & ? & ? & ? & ? & _).
  destruct (valid_datetime_bounds b Hvb) as (_ & _ & _ & ? & ? & ? & ? & _).
  unfold timestamp_us, datetime_cmp. rewrite Hza, Hzb. simpl default.
  rewrite !Z.sub_0_r.
  rewrite (radix_compare 1000000) by lia.
  rewrite (radix_compare 60) by lia.
  rewrite (radix_compare 60) by lia.
  rewrite (radix_compare 24) by lia.
  rewrite toordinal_compare by done.
  by destruct (year a ?= year b), (month a ?= month b), (day a ?= day b),
    (hour a ?= hour b), (minute a ?= minute b), (second a ?= second b).
Qed.

(** ** Documents *)

Lemma response_eta r :
  IdeaResponse.mk (IdeaResponse.id r) (IdeaResponse.text r)
    (IdeaResponse.upvotes r) (IdeaResponse.created_at r) = r.
Proof. by destruct r. Qed.

Lemma to_response_stored d r :
  stored d r → valid_datetime (IdeaResponse.created_at r) = true →
  to_response d = Some r.
Proof.
  intros (_ & Hi & Ht & Hu & Hc) Hv. unfold to_response, parse_from_mongo.
  rewrite Hc, fromisoformat_isoformat by done. cbn [mbind option_bind].
  unfold IdeaResponse.init. simplify_map_eq. by rewrite response_eta.
Qed.

Lemma to_response_wf d r :
  stored d r → wf_idea r → to_response d = Some r.
Proof.
  intros Hs (_ & _ & [Hv _]%is_utc_spec). by apply to_response_stored.
Qed.

Lemma stored_upvotes d r k :
  stored d r → stored (<["upvotes" := VInt k]> d) (with_upvotes r k).
Proof.
  intros ([oid Ho] & Hi & Ht & Hu & Hc). unfold stored, with_upvotes. simpl.
  simplify_map_eq. eauto 10.
Qed.

Lemma inc_stored d r :
  stored d r →
  inc "upvotes" 1 d = Some (<["upvotes" := VInt (IdeaResponse.upvotes r + 1)]> d).
Proof. intros (_ & _ & _ & Hu & _). unfold inc. by rewrite Hu. Qed.

Lemma wf_idea_upvotes r k : wf_idea r → 0 ≤ k → wf_idea (with_upvotes r k).
Proof. intros (? & ? & ?) ?. repeat split; simpl; lia || done. Qed.

Lemma stored_new oid uid text now :
  stored (new_document oid uid text now) (IdeaResponse.mk uid text 0 now).
Proof.
  unfold new_document, prepare_for_mongo, Idea.dict. simplify_map_eq.
  unfold stored. simpl.
  repeat split; [eexists|..]; simplify_map_eq; done.
Qed.

(** ** The handlers, case by case *)

Lemma IdeaCreate_init_Some text :
  (1 ≤ String.length text ≤ 280)%nat →
  IdeaCreate.init text = Some (IdeaCreate.mk text).
Proof.
  intros [H1 H2]. unfold IdeaCreate.init.
  apply Nat.leb_le in H1, H2. by rewrite H1, H2.
Qed.

Lemma IdeaCreate_init_None text :
  (String.length text = 0 ∨ 280 < String.length text)%nat →
  IdeaCreate.init text = None.
Proof.
  intros H. unfold IdeaCreate.init.
  destruct (1 <=? String.length text)%nat eqn:E1; [|done].
  destruct (String.length text <=? 280)%nat eqn:E2; [|done].
  apply Nat.leb_le in E1, E2. lia.
Qed.

Lemma IdeaCreate_init_inv text m :
  IdeaCreate.init text = Some m →
  m = IdeaCreate.mk text ∧ (1 ≤ String.length text ≤ 280)%nat.
Proof.
  unfold IdeaCreate.init.
  destruct (1 <=? String.length text)%nat eqn:E1; [|done].
  destruct (String.length text <=? 280)%nat eqn:E2; [|done].
  apply Nat.leb_le in E1, E2. simpl. intros [= <-]. done.
Qed.

Lemma create_idea_valid text uid now db :
  (1 ≤ String.length text ≤ 280)%nat →
  create_idea text uid now db
  = (Ok (IdeaResponse.mk uid text 0 now),
     mk_database (ideas db ++ [new_document (next_oid db) uid text now])
                 (next_oid db + 1)%N).
Proof.
  intros Hlen. unfold create_idea. rewrite IdeaCreate_init_Some by done.
  assert (Idea.init (IdeaCreate.dict (IdeaCreate.mk text)) uid now
          = Some (Idea.mk uid text 0 now)) as ->.
  { unfold Idea.init, IdeaCreate.dict. simplify_map_eq.
    destruct Hlen as [_ Hlen]. apply Nat.leb_le in Hlen. by rewrite Hlen. }
  assert (IdeaResponse.init (Idea.dict (Idea.mk uid text 0 now))
          = Some (IdeaResponse.mk uid text 0 now)) as ->.
  { unfold IdeaResponse.init, Idea.dict. by simplify_map_eq. }
  unfold insert_one, new_document.
  assert (prepare_for_mongo (Idea.dict (Idea.mk uid text 0 now)) !! "_id" = None)
    as ->; [|done].
  unfold prepare_for_mongo, Idea.dict. by simplify_map_eq.
Qed.

Lemma create_idea_invalid text uid now db :
  (String.length text = 0 ∨ 280 < String.length text)%nat →
  create_idea text uid now db = (HTTPError 422, db).
Proof. intros H. unfold create_idea. by rewrite IdeaCreate_init_None. Qed.

Lemma find_one_and_update_id x db :
  find_one_and_update "id" (VStr x) "upvotes" 1 db
  = match list_find (has_id x) (ideas db) with
    | None => Some (None, db)
    | Some (i, d) =>
        d' ← inc "upvotes" 1 d;
        Some (Some d', mk_database (<[i := d']> (ideas db)) (next_oid db))
    end.
Proof. reflexivity. Qed.

Lemma upvote_idea_missing x db :
  Forall (λ d, ¬ has_id x d) (ideas db) →
  upvote_idea x db = (HTTPError 404, db).
Proof.
  intros H. unfold upvote_idea. rewrite find_one_and_update_id.
  by rewrite (proj2 (list_find_None (has_id x) _) H).
Qed.

Lemma upvote_idea_found x db i d r :
  list_find (has_id x) (ideas db) = Some (i, d) →
  stored d r → valid_datetime (IdeaResponse.created_at r) = true →
  upvote_idea x db
  = (Ok (with_upvotes r (IdeaResponse.upvotes r + 1)),
     mk_database
       (<[i := <["upvotes" := VInt (IdeaResponse.upvotes r + 1)]> d]> (ideas db))
       (next_oid db)).
Proof.
  intros Hfind Hst Hv. unfold upvote_idea. rewrite find_one_and_update_id.
  rewrite Hfind, (inc_stored d r) by done.
  cbn [mbind option_bind].
  rewrite bool_decide_eq_false_2 by apply insert_non_empty.
  fold (to_response (<["upvotes" := VInt (IdeaResponse.upvotes r + 1)]> d)).
  rewrite (to_response_stored _ (with_upvotes r (IdeaResponse.upvotes r + 1)));
    [done| |done].
  by apply stored_upvotes.
Qed.

Lemma get_ideas_db db : snd (get_ideas db) = db.
Proof. unfold get_ideas. by destruct (mapM _ _). Qed.

Lemma upvote_idea_wf x db :
  wf_db db →
  (list_find (has_id x) (ideas db) = None ∧
   upvote_idea x db = (HTTPError 404, db)) ∨
  (∃ i d r,
     list_find (has_id x) (ideas db) = Some (i, d) ∧ stored d r ∧ wf_idea r ∧
     upvote_idea x db
     = (Ok (with_upvotes r (IdeaResponse.upvotes r + 1)),
        mk_database
          (<[i := <["upvotes" := VInt (IdeaResponse.upvotes r + 1)]> d]> (ideas db))
          (next_oid db))).
Proof.
  intros Hwf. destruct (list_find (has_id x) (ideas db)) as [[i d]|] eqn:Hfind.
  - right. pose proof Hfind as (Hi & _ & _)%list_find_Some.
    unfold wf_db in Hwf. rewrite Forall_lookup in Hwf.
    destruct (Hwf i d Hi) as (r & Hst & Hr).
    exists i, d, r. do 3 (split; [done|]).
    apply upvote_idea_found; try done.
    destruct Hr as (_ & _ & [Hv _]%is_utc_spec). done.
  - left. split; [done|]. apply upvote_idea_missing.
    by apply (proj1 (list_find_None (has_id x) _)).
Qed.

(** ** The store invariant *)

Lemma wf_db_handle rq db : wf_db db → clock_of rq → wf_db (handle rq db).
Proof.
  intros Hwf Hclock. destruct rq as [|text uid now|x]; simpl.
  - by rewrite get_ideas_db.
  - destruct (decide (1 ≤ String.length text ≤ 280)%nat) as [Hlen|Hlen].
    + rewrite create_idea_valid by done. simpl. unfold wf_db. simpl.
      apply Forall_app. split; [done|]. apply Forall_singleton.
      exists (IdeaResponse.mk uid text 0 now). split; [apply stored_new|].
      repeat split; simpl; lia || done.
    + rewrite create_idea_invalid by lia. done.
  - destruct (upvote_idea_wf x db Hwf) as [[_ ->]|(i & d & r & _ & Hst & Hr & ->)];
      [done|]. simpl. unfold wf_db. simpl.
    apply Forall_insert; [done|].
    exists (with_upvotes r (IdeaResponse.upvotes r + 1)).
    split; [by apply stored_upvotes|]. apply wf_idea_upvotes; [done|].
    destruct Hr as (_ & ? & _). lia.
Qed.

Lemma clock_ok_cons rq reqs :
  clock_ok (rq :: reqs) = true ↔ clock_of rq ∧ clock_ok reqs = true.
Proof.
  unfold clock_ok. simpl. rewrite andb_true_iff.
  destruct rq; simpl; intuition.
Qed.

Lemma wf_db_run reqs db :
  clock_ok reqs = true → wf_db db → wf_db (run reqs db).
Proof.
  revert db. induction reqs as [|rq reqs IH]; intros db Hc Hwf; [done|].
  apply clock_ok_cons in Hc as [Hrq Hc]. simpl.
  apply IH; [done|]. by apply wf_db_handle.
Qed.

Lemma reachable_wf db : reachable db → wf_db db.
Proof.
  intros (reqs & Hc & <-). apply wf_db_run; [done|]. by apply Forall_nil.
Qed.

Lemma reachable_handle rq db :
  reachable db → clock_of rq → reachable (handle rq db).
Proof.
  intros (reqs & Hc & <-) Hrq. exists (reqs ++ [rq]). split.
  - unfold clock_ok in *. rewrite forallb_app, Hc. simpl.
    destruct rq; simpl in *; try done. by rewrite Hrq.
  - unfold run. by rewrite foldl_app.
Qed.

(** ** The sort of the list endpoint *)

Lemma bson_compare_antisym a b : bson_compare b a = CompOpp (bson_compare a b).
Proof.
  destruct a as [[sa|na|da|oa]|], b as [[sb|nb|db|ob]|]; simpl; try done.
  - apply String.compare_antisym.
  - apply Z.compare_antisym.
  - apply (cmp_antisym (cmp:=datetime_cmp)).
  - apply N.compare_antisym.
Qed.

Lemma sort_compare_antisym spec a b :
  sort_compare spec b a = CompOpp (sort_compare spec a b).
Proof.
  induction spec as [|[k dir] spec IH]; simpl; [done|].
  rewrite lex_CompOpp, IH, (bson_compare_antisym (a !! k) (b !! k)).
  by destruct (dir <? 0).
Qed.

Global Instance sort_before_total spec : Total (sort_before spec).
Proof.
  intros a b. unfold sort_before. rewrite (sort_compare_antisym spec a b).
  destruct (sort_compare spec a b); auto.
Qed.

Lemma ranks_before_cmp a b : ranks_before a b ↔ response_cmp a b ≠ Gt.
Proof.
  unfold ranks_before, response_cmp.
  destruct (Z.compare_spec (IdeaResponse.upvotes a) (IdeaResponse.upvotes b));
    simpl.
  - destruct (datetime_cmp _ _); simpl; intuition (lia || done).
  - intuition (lia || done).
  - intuition (lia || done).
Qed.

Global Instance ranks_before_trans : Transitive ranks_before.
Proof.
  intros a b c. rewrite !ranks_before_cmp.
  apply (cmp_not_Gt_trans response_cmp).
Qed.

Lemma sort_compare_stored d1 d2 r1 r2 :
  stored d1 r1 → wf_idea r1 → stored d2 r2 → wf_idea r2 →
  sort_compare sort_spec d1 d2 = response_cmp r1 r2.
Proof.
  intros (_ & _ & _ & Hu1 & Hc1) (_ & _ & Hv1) (_ & _ & _ & Hu2 & Hc2) (_ & _ & Hv2).
  unfold sort_spec, response_cmp. cbn [sort_compare].
  rewrite Hu1, Hu2, Hc1, Hc2. change (-1 <? 0) with true.
  cbn [bson_compare]. by rewrite lex_Eq_r, isoformat_compare.
Qed.

Lemma Sorted_Forall2 {A B} (R1 : relation A) (R2 : relation B)
    (Q : A → B → Prop) l k :
  (∀ x1 x2 y1 y2, Q x1 y1 → Q x2 y2 → R1 x1 x2 → R2 y1 y2) →
  Forall2 Q l k → Sorted R1 l → Sorted R2 k.
Proof.
  intros HR HQ. induction HQ as [|x y l k Hxy HQ IH]; [constructor|].
  intros [Hs Hhd]%Sorted_inv. constructor; [auto|].
  destruct HQ; inversion Hhd; constructor; eauto.
Qed.

Lemma mapM_to_response_wf l :
  Forall wf_doc l →
  ∃ rs, mapM to_response l = Some rs ∧
        Forall2 (λ d r, stored d r ∧ wf_idea r) l rs.
Proof.
  induction 1 as [|d l (r & Hst & Hr) _ (rs & Hrs & HF)].
  - by exists [].
  - exists (r :: rs). split; [|by constructor].
    apply mapM_Some. constructor; [by apply to_response_wf|].
    by apply mapM_Some.
Qed.

Lemma omap_to_response_wf l rs :
  mapM to_response l = Some rs → omap to_response l = rs.
Proof.
  intros H%mapM_Some_1. induction H as [|d r l rs Hd _ IH]; [done|].
  csimpl. by rewrite Hd, IH.
Qed.

Lemma get_ideas_unfold db :
  get_ideas db
  = match mapM to_response (to_list 1000 (cursor_sort sort_spec (ideas db))) with
    | Some out => (Ok out, db)
    | None => (HTTPError 500, db)
    end.
Proof. reflexivity. Qed.

Lemma get_ideas_wf db :
  wf_db db →
  ∃ srs,
    get_ideas db = (Ok (take 1000 srs), db) ∧
    mapM to_response (cursor_sort sort_spec (ideas db)) = Some srs ∧
    srs ≡ₚ omap to_response (ideas db) ∧
    StronglySorted ranks_before srs ∧
    length srs = length (ideas db).
Proof.
  intros Hwf.
  pose proof (merge_sort_Permutation (sort_before sort_spec) (ideas db)) as Hperm.
  fold (cursor_sort sort_spec (ideas db)) in Hperm.
  assert (Forall wf_doc (cursor_sort sort_spec (ideas db))) as Hwf'.
  { by rewrite Hperm. }
  destruct (mapM_to_response_wf _ Hwf') as (srs & Hsrs & HF).
  exists srs. split_and!.
  - rewrite get_ideas_unfold. unfold to_list.
    assert (mapM to_response (take 1000 (cursor_sort sort_spec (ideas db)))
            = Some (take 1000 srs)) as ->; [|done].
    apply mapM_Some. apply Forall2_take. by apply mapM_Some.
  - done.
  - rewrite <- (omap_to_response_wf _ _ Hsrs). by rewrite Hperm.
  - apply Sorted_StronglySorted; [apply _|].
    eapply (Sorted_Forall2 (sort_before sort_spec)); [|exact HF|].
    + intros d1 d2 r1 r2 [Hs1 Hw1] [Hs2 Hw2] Hb. apply ranks_before_cmp.
      by rewrite <- (sort_compare_stored d1 d2).
    + apply Sorted_merge_sort. apply _.
  - rewrite <- (Forall2_length _ _ _ HF). by rewrite Hperm.
Qed.

(** ** What a request does to a stored document *)

Lemma has_id_stored x d r :
  stored d r → has_id x d ↔ IdeaResponse.id r = x.
Proof.
  intros (_ & Hi & _). unfold has_id. rewrite Hi. split; [by intros [= ->]|].
  by intros ->.
Qed.

Lemma insert_upvotes_id d r :
  stored d r → <["upvotes" := VInt (IdeaResponse.upvotes r)]> d = d.
Proof. intros (_ & _ & _ & Hu & _). by apply insert_id. Qed.

Lemma insert_upvotes_ids k (d : document) :
  <["upvotes" := VInt k]> d !! "id" = d !! "id".
Proof. by rewrite lookup_insert_ne. Qed.

Lemma doc_ids_upvote x db :
  wf_db db → doc_ids (snd (upvote_idea x db)) = doc_ids db.
Proof.
  intros Hwf.
  destruct (upvote_idea_wf x db Hwf)
    as [[_ ->]|(i & d & r & (Hi & _)%list_find_Some & _ & _ & ->)]; [done|].
  unfold doc_ids. simpl. rewrite list_fmap_insert, insert_upvotes_ids.
  apply list_insert_id. by rewrite list_lookup_fmap, Hi.
Qed.

Lemma doc_ids_create text uid now db :
  (1 ≤ String.length text ≤ 280)%nat →
  doc_ids (snd (create_idea text uid now db)) = doc_ids db ++ [Some (VStr uid)].
Proof.
  intros Hlen. rewrite create_idea_valid by done. unfold doc_ids. simpl.
  rewrite fmap_app. simpl.
  by destruct (stored_new (next_oid db) uid text now) as (_ & -> & _).
Qed.

(** A request leaves every stored document in place and changes at most its
    [upvotes] field, which it never lowers. *)
Lemma handle_lookup rq db p d r :
  wf_db db → ideas db !! p = Some d → stored d r →
  ∃ k, IdeaResponse.upvotes r ≤ k ∧
       ideas (handle rq db) !! p = Some (<["upvotes" := VInt k]> d).
Proof.
  intros Hwf Hp Hst. destruct rq as [|text uid now|x]; simpl.
  - exists (IdeaResponse.upvotes r). rewrite get_ideas_db.
    by rewrite (insert_upvotes_id d r).
  - exists (IdeaResponse.upvotes r). rewrite (insert_upvotes_id d r) by done.
    split; [done|]. unfold create_idea.
    destruct (IdeaCreate.init text) as [m|] eqn:Hm; [|done].
    apply IdeaCreate_init_inv in Hm as [-> Hlen].
    pose proof (create_idea_valid text uid now db Hlen) as Hc.
    unfold create_idea in Hc. rewrite IdeaCreate_init_Some in Hc by done.
    rewrite Hc. simpl. rewrite lookup_app_l; [done|]. by eapply lookup_lt_Some.
  - destruct (upvote_idea_wf x db Hwf)
      as [[_ ->]|(i & d0 & r0 & (Hi & _)%list_find_Some & Hst0 & Hr0 & ->)].
    + exists (IdeaResponse.upvotes r). by rewrite (insert_upvotes_id d r).
    + simpl. destruct (decide (i = p)) as [->|Hne].
      * assert (d0 = d) as -> by congruence.
        assert (IdeaResponse.upvotes r0 = IdeaResponse.upvotes r) as ->.
        { destruct Hst as (_ & _ & _ & Hu & _), Hst0 as (_ & _ & _ & Hu0 & _).
          congruence. }
        exists (IdeaResponse.upvotes r + 1). split; [lia|].
        apply list_lookup_insert_eq. by eapply lookup_lt_Some.
      * exists (IdeaResponse.upvotes r). split; [done|].
        rewrite list_lookup_insert_ne by done.
        by rewrite (insert_upvotes_id d r).
Qed.

Lemma run_lookup reqs db p d r :
  clock_ok reqs = true → wf_db db → ideas db !! p = Some d → stored d r →
  ∃ k, IdeaResponse.upvotes r ≤ k ∧
       ideas (run reqs db) !! p = Some (<["upvotes" := VInt k]> d).
Proof.
  revert db d r. induction reqs as [|rq reqs IH]; intros db d r Hc Hwf Hp Hst.
  - exists (IdeaResponse.upvotes r). by rewrite (insert_upvotes_id d r).
  - apply clock_ok_cons in Hc as [Hrq Hc].
    destruct (handle_lookup rq db p d r Hwf Hp Hst) as (k & Hk & Hp').
    destruct (IH (handle rq db) _ (with_upvotes r k) Hc
                 (wf_db_handle rq db Hwf Hrq) Hp' (stored_upvotes d r k Hst))
      as (k' & Hk' & Hp'').
    exists k'. split; [simpl in Hk'; lia|].
    simpl. by rewrite Hp'', insert_insert_eq.
Qed.

(** ** The model on concrete sessions *)

Example isoformat_whole_second : isoformat noon = "2025-03-14T12:00:00+00:00".
Proof. reflexivity. Qed.

Example isoformat_microseconds :
  isoformat later = "2025-03-14T12:00:00.250000+00:00".
Proof. reflexivity. Qed.

Example sample_db_ideas : ideas sample_db = [tree_house_doc; garden_doc].
Proof. vm_compute. reflexivity. Qed.

Example get_ideas_sample :
  fst (get_ideas sample_db)
  = Ok [IdeaResponse.mk tree_house_id "Build a tree house" 1 noon;
        IdeaResponse.mk garden_id "Plant a garden" 0 later].
Proof. vm_compute. reflexivity. Qed.

Example get_ideas_ranking :
  fst (get_ideas (run ranking_trace empty_db))
  = Ok [IdeaResponse.mk "id-c" "C" 2 later;
        IdeaResponse.mk "id-b" "B" 2 noon;
        IdeaResponse.mk "id-a" "A" 0 noon].
Proof. vm_compute. reflexivity. Qed.

Example upvote_three_times :
  fst (upvote_idea garden_id
         (run [UpvoteIdea garden_id; UpvoteIdea garden_id] sample_db))
  = Ok (IdeaResponse.mk garden_id "Plant a garden" 3 later).
Proof. vm_compute. reflexivity. Qed.

Example create_too_long :
  fst (create_idea (zfill 281 0) garden_id later sample_db) = HTTPError 422.
Proof. vm_compute. reflexivity. Qed.

(** ** Upvoting a stored idea *)

Lemma to_response_inv d r : wf_doc d → to_response d = Some r → stored d r ∧ wf_idea r.
Proof.
  intros (r' & Hst & Hr) Hd. rewrite (to_response_wf d r' Hst Hr) in Hd.
  by simplify_eq.
Qed.

Lemma wf_db_lookup db i d : wf_db db → ideas db !! i = Some d → wf_doc d.
Proof. unfold wf_db. rewrite Forall_lookup. eauto. Qed.

Lemma first_of_id_NoDup x db i d :
  NoDup (doc_ids db) → ideas db !! i = Some d → has_id x d →
  first_of_id x i db.
Proof.
  intros Hnd Hi Hd [j Hj]%list_elem_of_lookup.
  apply lookup_take_Some in Hj as [Hj Hlt].
  assert (j = i); [|lia].
  apply (NoDup_lookup (doc_ids db) j i (Some (VStr x))); [done..|].
  unfold doc_ids. rewrite list_lookup_fmap, Hi. simpl. by rewrite Hd.
Qed.

Lemma list_find_first x db i d :
  first_of_id x i db → ideas db !! i = Some d → has_id x d →
  list_find (has_id x) (ideas db) = Some (i, d).
Proof.
  intros Hfirst Hi Hd. apply list_find_Some. split_and!; [done..|].
  intros j y Hj Hlt Hy. destruct Hfirst.
  apply (list_elem_of_lookup_2 _ j). apply lookup_take_Some. split; [|done].
  unfold doc_ids. rewrite list_lookup_fmap, Hj. simpl. by rewrite Hy.
Qed.

Lemma upvote_idea_first db i d r :
  wf_db db → first_of_id (IdeaResponse.id r) i db → ideas db !! i = Some d →
  to_response d = Some r →
  upvote_idea (IdeaResponse.id r) db
  = (Ok (with_upvotes r (IdeaResponse.upvotes r + 1)),
     mk_database
       (<[i := <["upvotes" := VInt (IdeaResponse.upvotes r + 1)]> d]> (ideas db))
       (next_oid db)).
Proof.
  intros Hwf Hfirst Hi Hd.
  destruct (to_response_inv d r (wf_db_lookup db i d Hwf Hi) Hd)
    as (Hst & _ & _ & [Hv _]%is_utc_spec).
  apply upvote_idea_found; [|done..].
  apply list_find_first; [done..|]. by apply (has_id_stored _ d r).
Qed.

Lemma run_snoc reqs rq db : run (reqs ++ [rq]) db = handle rq (run reqs db).
Proof. unfold run. by rewrite foldl_app. Qed.

Lemma upvote_idea_repeat_first db i d r n :
  wf_db db → first_of_id (IdeaResponse.id r) i db → ideas db !! i = Some d →
  to_response d = Some r →
  let dbn := run (replicate n (UpvoteIdea (IdeaResponse.id r))) db in
  wf_db dbn ∧ doc_ids dbn = doc_ids db ∧
  ideas dbn !! i
  = Some (<["upvotes" := VInt (IdeaResponse.upvotes r + Z.of_nat n)]> d).
Proof.
  intros Hwf Hfirst Hi Hd.
  destruct (to_response_inv d r (wf_db_lookup db i d Hwf Hi) Hd) as (Hst & Hr).
  induction n as [|n (Hwfn & Hids & Hn)]; cbv zeta.
  - simpl. split_and!; [done..|].
    rewrite Z.add_0_r. by rewrite (insert_upvotes_id d r).
  - rewrite replicate_S_end, run_snoc. cbn [handle].
    set (dbn := run (replicate n (UpvoteIdea (IdeaResponse.id r))) db) in *.
    split_and!.
    + by apply (wf_db_handle (UpvoteIdea (IdeaResponse.id r))).
    + by rewrite doc_ids_upvote.
    + pose proof (stored_upvotes d r (IdeaResponse.upvotes r + Z.of_nat n) Hst) as Hst'.
      assert (to_response
                (<["upvotes" := VInt (IdeaResponse.upvotes r + Z.of_nat n)]> d)
              = Some (with_upvotes r (IdeaResponse.upvotes r + Z.of_nat n))) as Hd'.
      { apply to_response_wf; [done|]. apply wf_idea_upvotes; [done|].
        destruct Hr as (_ & ? & _). lia. }
      assert (first_of_id (IdeaResponse.id r) i dbn) as Hfirstn.
      { unfold first_of_id. by rewrite Hids. }
      pose proof (upvote_idea_first dbn i _
                    (with_upvotes r (IdeaResponse.upvotes r + Z.of_nat n))
                    Hwfn Hfirstn Hn Hd') as Hup.
      cbn [IdeaResponse.id IdeaResponse.upvotes with_upvotes] in Hup.
      rewrite Hup. simpl.
      rewrite list_lookup_insert_eq by (by eapply lookup_lt_Some).
      rewrite insert_insert_eq. do 3 f_equal. lia.
Qed.

(** ** A created idea under later upvotes *)

Lemma clock_ok_upvotes xs : clock_ok (UpvoteIdea <$> xs) = true.
Proof. induction xs as [|x xs IH]; [done|]. by apply clock_ok_cons. Qed.

Lemma doc_ids_run_upvotes xs db :
  wf_db db → doc_ids (run (UpvoteIdea <$> xs) db) = doc_ids db.
Proof.
  revert db. induction xs as [|x xs IH]; intros db Hwf; [done|].
  simpl. rewrite IH by (by apply (wf_db_handle (UpvoteIdea x))).
  by apply doc_ids_upvote.
Qed.

Lemma create_idea_Ok_inv text uid now db r db1 :
  create_idea text uid now db = (Ok r, db1) →
  (1 ≤ String.length text ≤ 280)%nat ∧
  r = IdeaResponse.mk uid text 0 now ∧
  db1 = mk_database (ideas db ++ [new_document (next_oid db) uid text now])
                    (next_oid db + 1)%N.
Proof.
  intros Hc.
  destruct (decide (1 ≤ String.length text ≤ 280)%nat) as [Hlen|Hlen].
  - rewrite create_idea_valid in Hc by done. by simplify_eq.
  - rewrite create_idea_invalid in Hc by lia. done.
Qed.

Lemma upvote_idea_Ok_inv x db r' db' :
  wf_db db → upvote_idea x db = (Ok r', db') →
  ∃ i d r,
    ideas db !! i = Some d ∧ to_response d = Some r ∧ IdeaResponse.id r = x ∧
    r' = with_upvotes r (IdeaResponse.upvotes r + 1) ∧
    db' = mk_database
            (<[i := <["upvotes" := VInt (IdeaResponse.upvotes r + 1)]> d]> (ideas db))
            (next_oid db).
Proof.
  intros Hwf Hup.
  destruct (upvote_idea_wf x db Hwf)
    as [[_ E]|(i & d & r & (Hi & Hid & _)%list_find_Some & Hst & Hr & E)];
    rewrite E in Hup; [done|].
  exists i, d, r. simplify_eq. split_and!; try done.
  - by apply to_response_wf.
  - by apply (has_id_stored _ d r).
Qed.

Lemma created_idea_after_upvotes text uid now db r db1 xs :
  wf_db db → is_utc now = true →
  create_idea text uid now db = (Ok r, db1) →
  let db2 := run (UpvoteIdea <$> xs) db1 in
  ∃ k out,
    0 ≤ k ∧ get_ideas db2 = (Ok out, db2) ∧
    ((length (ideas db2) ≤ 1000)%nat → with_upvotes r k ∈ out) ∧
    (Some (VStr uid) ∉ doc_ids db →
     ∀ r', r' ∈ out → IdeaResponse.id r' = IdeaResponse.id r →
           r' = with_upvotes r k).
Proof.
  intros Hwf Hnow Hc db2.
  pose proof (wf_db_handle (CreateIdea text uid now) db Hwf Hnow) as Hwf1.
  simpl in Hwf1. rewrite Hc in Hwf1. simpl in Hwf1.
  apply create_idea_Ok_inv in Hc as (Hlen & -> & Hdb1).
  set (doc := new_document (next_oid db) uid text now) in *.
  set (r := IdeaResponse.mk uid text 0 now).
  assert (ideas db1 !! length (ideas db) = Some doc) as Hp.
  { rewrite Hdb1. simpl. by apply list_lookup_middle. }
  pose proof (stored_new (next_oid db) uid text now) as Hst. fold doc r in Hst.
  destruct (run_lookup (UpvoteIdea <$> xs) db1 _ doc r
              (clock_ok_upvotes xs) Hwf1 Hp Hst) as (k & Hk & Hp2).
  fold db2 in Hp2. simpl in Hk.
  assert (wf_db db2) as Hwf2 by (by apply wf_db_run; [apply clock_ok_upvotes|]).
  assert (wf_idea (with_upvotes r k)) as Hrk.
  { repeat split; simpl; lia || done. }
  assert (to_response (<["upvotes" := VInt k]> doc) = Some (with_upvotes r k)) as Hdk.
  { apply to_response_wf; [by apply stored_upvotes|done]. }
  destruct (get_ideas_wf db2 Hwf2) as (srs & Hget & _ & Hperm & _ & Hlensrs).
  assert (∀ r', r' ∈ take 1000 srs → r' ∈ omap to_response (ideas db2)) as Hsub.
  { intros r' Hr'. rewrite <- Hperm. by eapply subseteq_take. }
  exists k, (take 1000 srs). split_and!; [done..| |].
  - intros Hle. rewrite take_ge.
    + rewrite Hperm. apply list_elem_of_omap.
      exists (<["upvotes" := VInt k]> doc). split; [|done].
      by eapply list_elem_of_lookup_2.
    + by rewrite Hlensrs.
  - intros Hfresh r' Hr' Hid.
    apply Hsub, list_elem_of_omap in Hr' as (d' & [j Hj]%list_elem_of_lookup & Hd').
    destruct (to_response_inv d' r' (wf_db_lookup db2 j d' Hwf2 Hj) Hd')
      as ((_ & Hid' & _) & _).
    assert (doc_ids db2 !! j = Some (Some (VStr uid))) as Hidj.
    { unfold doc_ids. rewrite list_lookup_fmap, Hj. simpl.
      by rewrite Hid', Hid. }
    unfold db2 in Hidj. rewrite doc_ids_run_upvotes in Hidj by done.
    rewrite Hdb1 in Hidj. unfold doc_ids in Hidj. simpl in Hidj.
    rewrite fmap_app in Hidj.
    apply lookup_app_Some in Hidj as [Hin|[Hge Hlast]].
    + destruct Hfresh. by eapply list_elem_of_lookup_2.
    + rewrite length_fmap in Hge, Hlast.
      assert (j = length (ideas db)) as ->.
      { apply lookup_lt_Some in Hlast. simpl in Hlast. lia. }
      rewrite Hp2 in Hj. simplify_eq. congruence.
Qed.

(** ** Distinct identifiers *)

Lemma NoDup_doc_ids_handle rq db :
  wf_db db → NoDup (doc_ids db) →
  match rq with
  | CreateIdea text uid _ =>
      is_Some (IdeaCreate.init text) → Some (VStr uid) ∉ doc_ids db
  | _ => True
  end →
  NoDup (doc_ids (handle rq db)).
Proof.
  intros Hwf Hnd Hfresh. destruct rq as [|text uid now|x]; simpl.
  - by rewrite get_ideas_db.
  - destruct (decide (1 ≤ String.length text ≤ 280)%nat) as [Hlen|Hlen].
    + rewrite doc_ids_create by done. apply NoDup_app. split_and!; [done| |].
      * intros y Hy ->%list_elem_of_singleton. revert Hy. apply Hfresh.
        by rewrite IdeaCreate_init_Some.
      * apply NoDup_singleton.
    + by rewrite create_idea_invalid by lia.
  - by rewrite doc_ids_upvote.
Qed.

Lemma NoDup_doc_ids_run reqs db :
  clock_ok reqs = true → uuids_fresh reqs db = true →
  wf_db db → NoDup (doc_ids db) → NoDup (doc_ids (run reqs db)).
Proof.
  revert db. induction reqs as [|rq reqs IH]; intros db Hc Hf Hwf Hnd; [done|].
  apply clock_ok_cons in Hc as [Hrq Hc].
  simpl in Hf. apply andb_true_iff in Hf as [Hf1 Hf2].
  simpl. apply IH; [done..|by apply wf_db_handle|].
  apply NoDup_doc_ids_handle; [done..|].
  destruct rq; try done. by apply bool_decide_eq_true in Hf1.
Qed.

(** ** Listing against a store that does not order ties *)

Lemma cursor_sort_sorts_to spec docs :
  sorts_to spec docs (cursor_sort spec docs).
Proof.
  split.
  - apply merge_sort_Permutation.
  - apply Sorted_merge_sort. apply _.
Qed.

Lemma get_ideas_may_get_ideas db : get_ideas_may db (get_ideas db).
Proof.
  exists (cursor_sort sort_spec (ideas db)).
  split; [apply cursor_sort_sorts_to|done].
Qed.

Lemma get_ideas_may_wf db res :
  wf_db db → get_ideas_may db res →
  ∃ srs,
    res = (Ok (take 1000 srs), db) ∧
    srs ≡ₚ omap to_response (ideas db) ∧
    StronglySorted ranks_before srs.
Proof.
  intros Hwf (sorted & [Hperm Hsorted] & ->).
  assert (Forall wf_doc sorted) as Hwf' by (by rewrite Hperm).
  destruct (mapM_to_response_wf _ Hwf') as (srs & Hsrs & HF).
  exists srs. split_and!.
  - unfold to_list. fold to_response.
    assert (mapM to_response (take 1000 sorted) = Some (take 1000 srs)) as ->; [|done].
    apply mapM_Some. apply Forall2_take. by apply mapM_Some.
  - rewrite <- (omap_to_response_wf _ _ Hsrs). by rewrite Hperm.
  - apply Sorted_StronglySorted; [apply _|].
    eapply (Sorted_Forall2 (sort_before sort_spec)); [|exact HF|exact Hsorted].
    intros d1 d2 r1 r2 [Hs1 Hw1] [Hs2 Hw2] Hb. apply ranks_before_cmp.
    by rewrite <- (sort_compare_stored d1 d2).
Qed.

Lemma ties_agree_records db r1 r2 :
  wf_db db → ties_agree db →
  r1 ∈ omap to_response (ideas db) → r2 ∈ omap to_response (ideas db) →
  ranks_before r1 r2 → ranks_before r2 r1 → r1 = r2.
Proof.
  intros Hwf Hties (d1 & Hd1 & Hr1)%list_elem_of_omap (d2 & Hd2 & Hr2)%list_elem_of_omap.
  rewrite !ranks_before_cmp. rewrite (cmp_antisym (cmp:=response_cmp) r1 r2).
  intros H12 H21.
  assert (response_cmp r1 r2 = Eq) as Heq by (by destruct (response_cmp r1 r2)).
  unfold wf_db in Hwf. rewrite Forall_forall in Hwf.
  destruct (to_response_inv d1 r1 (Hwf d1 Hd1) Hr1) as (Hst1 & Hw1).
  destruct (to_response_inv d2 r2 (Hwf d2 Hd2) Hr2) as (Hst2 & Hw2).
  rewrite <- (sort_compare_stored d1 d2 r1 r2) in Heq by done.
  unfold ties_agree in Hties. rewrite Forall_forall in Hties.
  pose proof (Hties d1 Hd1) as Hties1. rewrite Forall_forall in Hties1.
  specialize (Hties1 d2 Hd2 Heq). congruence.
Qed.

Lemma get_ideas_may_unique db res1 res2 :
  wf_db db → ties_agree db →
  get_ideas_may db res1 → get_ideas_may db res2 → res1 = res2.
Proof.
  intros Hwf Hties H1 H2.
  destruct (get_ideas_may_wf db res1 Hwf H1) as (srs1 & -> & Hp1 & Hs1).
  destruct (get_ideas_may_wf db res2 Hwf H2) as (srs2 & -> & Hp2 & Hs2).
  do 3 f_equal.
  apply (StronglySorted_unique_strong ranks_before); [|done..|by rewrite Hp1, Hp2].
  intros r1 r2 Hr1 Hr2. rewrite Hp1 in Hr1. rewrite Hp2 in Hr2.
  by apply (ties_agree_records db).
Qed.

(** * Properties of the service *)

(** C1: the docstring of [get_ideas] promises all ideas, and the handler
    fetches at most 1000 documents.  After 1001 accepted creates the list
    endpoint answers with 1000 ideas: the idea that ranks last, the one
    created first, is stored and is not in the answer. *)
Lemma get_ideas_caps_at_1000 :
  reachable crowded_db ∧
  length (ideas crowded_db) = 1001%nat ∧
  (∃ d, ideas crowded_db !! 0%nat = Some d ∧
        to_response d = Some first_of_crowd) ∧
  ∃ out, get_ideas crowded_db = (Ok out, crowded_db) ∧
         length out = 1000%nat ∧
         first_of_crowd ∉ out.
Proof.
  assert (reachable crowded_db) as Hreach.
  { exists crowd. split; [vm_compute; reflexivity|done]. }
  assert (length (ideas crowded_db) = 1001%nat) as Hlen
    by (vm_compute; reflexivity).
  assert (bool_decide
            (first_of_crowd ∈ match fst (get_ideas crowded_db) with
                              | Ok out => out
                              | HTTPError _ => []
                              end) = false) as Hout
    by (vm_compute; reflexivity).
  split_and!; [done..| |].
  - exists (new_document 0 (crowd_id 0) "Yet another idea" noon).
    split; vm_compute; reflexivity.
  - destruct (get_ideas_wf crowded_db (reachable_wf _ Hreach))
      as (srs & Hget & _ & _ & _ & Hsrs).
    rewrite Hget in Hout. cbn [fst] in Hout.
    exists (take 1000 srs). split_and!; [done| |].
    + rewrite length_take, Hsrs, Hlen. done.
    + by apply bool_decide_eq_false in Hout.
Qed.

(** C2, as stated, fails for an idea that shares its id with an idea stored
    before it (ids are inserted unchecked).  After two creates that drew
    the same id, an upvote of that id answers with the first idea, and the
    second idea, present in the store, keeps its 0 upvotes: after one
    upvote call and after three. *)
Lemma upvote_idea_later_twin_counterexample :
  reachable (run twin_trace empty_db) ∧
  (∃ d, ideas (run twin_trace empty_db) !! 1%nat = Some d ∧
        to_response d
        = Some (IdeaResponse.mk tree_house_id "Plant a garden" 0 later)) ∧
  fst (upvote_idea tree_house_id (run twin_trace empty_db))
  = Ok (IdeaResponse.mk tree_house_id "Build a tree house" 1 noon) ∧
  fst (upvote_idea tree_house_id (run twin_trace empty_db))
  ≠ Ok (IdeaResponse.mk tree_house_id "Plant a garden" 1 later) ∧
  (∃ d, ideas (snd (upvote_idea tree_house_id (run twin_trace empty_db))) !! 1%nat
        = Some d ∧
        to_response d
        = Some (IdeaResponse.mk tree_house_id "Plant a garden" 0 later)) ∧
  (∃ d, ideas (run (replicate 3 (UpvoteIdea tree_house_id))
                   (run twin_trace empty_db)) !! 1%nat = Some d ∧
        to_response d
        = Some (IdeaResponse.mk tree_house_id "Plant a garden" 0 later)).
Proof.
  assert (fst (upvote_idea tree_house_id (run twin_trace empty_db))
          = Ok (IdeaResponse.mk tree_house_id "Build a tree house" 1 noon))
    as Hup by (vm_compute; reflexivity).
  split_and!.
  - exists twin_trace. split; reflexivity.
  - exists (new_document 1 tree_house_id "Plant a garden" later).
    split; vm_compute; reflexivity.
  - exact Hup.
  - rewrite Hup. discriminate.
  - exists (new_document 1 tree_house_id "Plant a garden" later).
    split; vm_compute; reflexivity.
  - exists (new_document 1 tree_house_id "Plant a garden" later).
    split; vm_compute; reflexivity.
Qed.

(** C2, amended: let the idea [r] be stored (as document [i]) in a
    reachable state with no idea of the same id stored before it, as is the
    case of every stored idea when the ids are pairwise distinct.  After
    [n] sequential upvotes of its id the stored idea is [r] with [n] more
    upvotes; one more upvote call succeeds, returns the record with exactly
    one upvote more and stores that record in the same place ([n = 0] is
    the single call).  Hence an idea that starts with no upvotes, as create
    leaves it, has exactly [n] upvotes after [n] upvote calls. *)
Theorem upvote_idea_increments (db : database) (i : nat) (d : document)
    (r : IdeaResponse.t) (n : nat) :
  reachable db →
  ideas db !! i = Some d → to_response d = Some r →
  let x := IdeaResponse.id r in
  let dbn := run (replicate n (UpvoteIdea x)) db in
  let k := IdeaResponse.upvotes r + Z.of_nat n in
  (NoDup (doc_ids db) → first_of_id x i db) ∧
  (first_of_id x i db →
   (∃ dn, ideas dbn !! i = Some dn ∧ to_response dn = Some (with_upvotes r k)) ∧
   (∃ dn', upvote_idea x dbn
           = (Ok (with_upvotes r (k + 1)),
              mk_database (<[i := dn']> (ideas dbn)) (next_oid dbn)) ∧
           to_response dn' = Some (with_upvotes r (k + 1))) ∧
   (IdeaResponse.upvotes r = 0 → k = Z.of_nat n)).
Proof.
  intros Hwf%reachable_wf Hi Hd x dbn k.
  destruct (to_response_inv d r (wf_db_lookup db i d Hwf Hi) Hd) as (Hst & Hr).
  split.
  { intros Hnd. apply (first_of_id_NoDup x db i d); [done..|].
    by apply (has_id_stored _ d r). }
  intros Hfirst.
  destruct (upvote_idea_repeat_first db i d r n Hwf Hfirst Hi Hd)
    as (Hwfn & Hids & Hn).
  fold x in Hwfn, Hids, Hn. fold dbn in Hwfn, Hids, Hn. fold k in Hn.
  assert (0 ≤ k) as Hk by (destruct Hr as (_ & ? & _); lia).
  assert (to_response (<["upvotes" := VInt k]> d) = Some (with_upvotes r k)) as Hdn.
  { apply to_response_wf; [by apply stored_upvotes|by apply wf_idea_upvotes]. }
  split_and!.
  - by exists (<["upvotes" := VInt k]> d).
  - exists (<["upvotes" := VInt (k + 1)]> d).
    assert (first_of_id x i dbn) as Hfirstn.
    { unfold first_of_id. by rewrite Hids. }
    pose proof (upvote_idea_first dbn i _ (with_upvotes r k) Hwfn Hfirstn Hn Hdn)
      as Hup.
    cbn [IdeaResponse.id IdeaResponse.upvotes with_upvotes] in Hup.
    fold x in Hup. rewrite insert_insert_eq in Hup. split; [exact Hup|].
    apply to_response_wf; [by apply stored_upvotes|].
    apply wf_idea_upvotes; [done|lia].
  - intros Hz. unfold k. lia.
Qed.

Lemma upvote_idea_increments_witness :
  reachable (run twin_trace empty_db) ∧
  ¬ NoDup (doc_ids (run twin_trace empty_db)) ∧
  first_of_id tree_house_id 0 (run twin_trace empty_db) ∧
  ideas (run twin_trace empty_db) !! 0%nat
  = Some (new_document 0 tree_house_id "Build a tree house" noon) ∧
  let r := IdeaResponse.mk tree_house_id "Build a tree house" 0 noon in
  let dbn := run (replicate 3 (UpvoteIdea tree_house_id))
                 (run twin_trace empty_db) in
  to_response (new_document 0 tree_house_id "Build a tree house" noon) = Some r ∧
  (∃ dn, ideas dbn !! 0%nat = Some dn ∧ to_response dn = Some (with_upvotes r 3)) ∧
  (∃ dn', upvote_idea tree_house_id dbn
          = (Ok (with_upvotes r 4),
             mk_database (<[0%nat := dn']> (ideas dbn)) (next_oid dbn)) ∧
          to_response dn' = Some (with_upvotes r 4)) ∧
  (IdeaResponse.upvotes r = 0 → 0 + 3 = 3).
Proof.
  assert (reachable (run twin_trace empty_db)) as Hreach.
  { exists twin_trace. split; reflexivity. }
  assert (¬ NoDup (doc_ids (run twin_trace empty_db))) as Hdup.
  { apply (bool_decide_unpack _). vm_compute. exact I. }
  assert (first_of_id tree_house_id 0 (run twin_trace empty_db)) as Hfirst.
  { apply (bool_decide_unpack _). vm_compute. exact I. }
  assert (ideas (run twin_trace empty_db) !! 0%nat
          = Some (new_document 0 tree_house_id "Build a tree house" noon)) as Hi
    by (vm_compute; reflexivity).
  assert (to_response (new_document 0 tree_house_id "Build a tree house" noon)
          = Some (IdeaResponse.mk tree_house_id "Build a tree house" 0 noon)) as Hd
    by (vm_compute; reflexivity).
  split; [exact Hreach|]. split; [exact Hdup|]. split; [exact Hfirst|].
  split; [exact Hi|]. cbv zeta. split; [exact Hd|].
  exact (proj2 (upvote_idea_increments (run twin_trace empty_db) 0 _ _ 3
                  Hreach Hi Hd) Hfirst).
Defined.

(** C3, as stated, fails on the freshness of the id: when [uuid.uuid4()]
    returns a string that a stored idea already carries, create succeeds
    with that id. *)
Lemma create_idea_fresh_id_counterexample :
  reachable sample_db ∧
  Some (VStr garden_id) ∈ doc_ids sample_db ∧
  fst (create_idea "Dig a pond" garden_id later sample_db)
  = Ok (IdeaResponse.mk garden_id "Dig a pond" 0 later) ∧
  doc_ids (snd (create_idea "Dig a pond" garden_id later sample_db))
  = [Some (VStr tree_house_id); Some (VStr garden_id); Some (VStr garden_id)].
Proof.
  split; [exists sample_trace; split; reflexivity|].
  split; [apply (bool_decide_unpack _); vm_compute; exact I|].
  split; vm_compute; reflexivity.
Qed.

(** C3, amended: for every text of 1 to 280 characters, create succeeds and
    returns the record whose [id] is the string that [uuid.uuid4()] returned
    for this request, whose [text] is the given text, whose [upvotes] is 0
    and whose [created_at] is the clock reading; the record is persisted as
    the last document of the collection, all earlier documents untouched,
    and reading that document back gives exactly the returned record.  The
    id differs from every stored id exactly when the generated string does. *)
Theorem create_idea_accepts (text uid : string) (now : datetime) (db : database) :
  (1 ≤ String.length text ≤ 280)%nat →
  is_utc now = true →
  ∃ r doc,
    create_idea text uid now db
    = (Ok r, mk_database (ideas db ++ [doc]) (next_oid db + 1)%N) ∧
    IdeaResponse.id r = uid ∧
    IdeaResponse.text r = text ∧
    IdeaResponse.upvotes r = 0 ∧
    IdeaResponse.created_at r = now ∧
    stored doc r ∧
    to_response doc = Some r ∧
    (Some (VStr uid) ∉ doc_ids db →
     Some (VStr (IdeaResponse.id r)) ∉ doc_ids db).
Proof.
  intros Hlen [Hv _]%is_utc_spec.
  exists (IdeaResponse.mk uid text 0 now), (new_document (next_oid db) uid text now).
  split_and!; try done.
  - by apply create_idea_valid.
  - apply stored_new.
  - apply to_response_stored; [apply stored_new|done].
Qed.

Lemma create_idea_accepts_witness :
  (1 ≤ String.length "Dig a pond" ≤ 280)%nat ∧
  is_utc later = true ∧
  ∃ r doc,
    create_idea "Dig a pond" "3d6f0a9c-54b1-4c1e-9f0a-2b7c8d9e0f11" later sample_db
    = (Ok r, mk_database (ideas sample_db ++ [doc]) (next_oid sample_db + 1)%N) ∧
    IdeaResponse.id r = "3d6f0a9c-54b1-4c1e-9f0a-2b7c8d9e0f11" ∧
    IdeaResponse.text r = "Dig a pond" ∧
    IdeaResponse.upvotes r = 0 ∧
    IdeaResponse.created_at r = later ∧
    stored doc r ∧
    to_response doc = Some r ∧
    (Some (VStr "3d6f0a9c-54b1-4c1e-9f0a-2b7c8d9e0f11") ∉ doc_ids sample_db →
     Some (VStr (IdeaResponse.id r)) ∉ doc_ids sample_db).
Proof.
  assert (1 ≤ String.length "Dig a pond" ≤ 280)%nat as Hlen by (simpl; lia).
  split; [exact Hlen|]. split; [reflexivity|].
  apply create_idea_accepts; [exact Hlen|reflexivity].
Defined.

(** C4: a text of length 0 or of length above 280 is refused with status
    422 and the database is left as it was. *)
Theorem create_idea_rejects (text uid : string) (now : datetime) (db : database) :
  (String.length text = 0 ∨ 280 < String.length text)%nat →
  create_idea text uid now db = (HTTPError 422, db).
Proof. apply create_idea_invalid. Qed.

Lemma create_idea_rejects_witness :
  String.length "" = 0%nat ∧
  create_idea "" garden_id later sample_db = (HTTPError 422, sample_db).
Proof. split; [reflexivity|]. apply create_idea_rejects. left. reflexivity. Defined.

(** C5: upvoting an id that no stored document carries answers 404 and
    returns the database unchanged. *)
Theorem upvote_unknown_id (idea_id : string) (db : database) :
  Some (VStr idea_id) ∉ doc_ids db →
  upvote_idea idea_id db = (HTTPError 404, db).
Proof.
  intros Hnot. apply upvote_idea_missing. apply Forall_forall.
  intros d Hd Hid. apply Hnot. unfold doc_ids.
  apply list_elem_of_fmap. exists d. by rewrite Hid.
Qed.

Lemma upvote_unknown_id_witness :
  (Some (VStr "nonexistent-id") ∉ doc_ids sample_db) ∧
  upvote_idea "nonexistent-id" sample_db = (HTTPError 404, sample_db).
Proof.
  assert (Some (VStr "nonexistent-id") ∉ doc_ids sample_db) as H.
  { apply (bool_decide_unpack _). vm_compute. exact I. }
  split; [exact H|]. apply upvote_unknown_id. exact H.
Defined.

(** C6: in a reachable state, a successful upvote of [x] rewrites exactly
    one document, one whose id is [x], and only its [upvotes] field (the
    new collection is the old one with that field of that document
    replaced); the record it returns is that document's record with the
    new count.  Consequently, when create has returned the record [r] and
    any sequence of upvotes follows, the list endpoint succeeds and, for
    some count [k], shows [r] with [upvotes] set to [k] and nothing else
    changed whenever the collection is within the 1000 documents the
    endpoint fetches; and when the generated id was not in use, every
    listed record carrying that id is [r] with [upvotes] set to [k]. *)
Theorem upvote_idea_frame (db : database) :
  reachable db →
  (∀ x r' db',
     upvote_idea x db = (Ok r', db') →
     ∃ i d r,
       ideas db !! i = Some d ∧ to_response d = Some r ∧
       IdeaResponse.id r = x ∧
       r' = with_upvotes r (IdeaResponse.upvotes r + 1) ∧
       db' = mk_database
               (<[i := <["upvotes" := VInt (IdeaResponse.upvotes r + 1)]> d]>
                  (ideas db))
               (next_oid db)) ∧
  (∀ text uid now r db1 xs,
     is_utc now = true →
     create_idea text uid now db = (Ok r, db1) →
     let db2 := run (UpvoteIdea <$> xs) db1 in
     ∃ k out,
       0 ≤ k ∧ get_ideas db2 = (Ok out, db2) ∧
       ((length (ideas db2) ≤ 1000)%nat → with_upvotes r k ∈ out) ∧
       (Some (VStr uid) ∉ doc_ids db →
        ∀ r', r' ∈ out → IdeaResponse.id r' = IdeaResponse.id r →
              r' = with_upvotes r k)).
Proof.
  intros Hwf%reachable_wf. split.
  - intros x r' db'. by apply upvote_idea_Ok_inv.
  - intros text uid now r db1 xs Hnow Hc.
    by apply (created_idea_after_upvotes text uid now db r db1 xs).
Qed.

Lemma upvote_idea_frame_witness :
  reachable sample_db ∧
  ∃ i d r,
    ideas sample_db !! i = Some d ∧ to_response d = Some r ∧
    IdeaResponse.id r = tree_house_id ∧
    upvote_idea tree_house_id sample_db
    = (Ok (with_upvotes r (IdeaResponse.upvotes r + 1)),
       mk_database
         (<[i := <["upvotes" := VInt (IdeaResponse.upvotes r + 1)]> d]>
            (ideas sample_db))
         (next_oid sample_db)).
Proof.
  assert (reachable sample_db) as Hreach.
  { exists sample_trace. split; reflexivity. }
  split; [exact Hreach|].
  assert (∃ r' db', upvote_idea tree_house_id sample_db = (Ok r', db'))
    as (r' & db' & Hup).
  { eexists _, _. vm_compute. reflexivity. }
  destruct (proj1 (upvote_idea_frame sample_db Hreach) tree_house_id r' db' Hup)
    as (i & d & r & Hi & Hd & Hid & Hr' & Hdb').
  exists i, d, r. rewrite Hup, Hr', Hdb'. auto.
Defined.

(** C7, as stated, fails: the store does not order documents that agree on
    upvotes and on [created_at].  After two creates that read the same
    clock value the handler may answer with the two ideas in either
    order. *)
Lemma get_ideas_tie_counterexample :
  reachable (run tie_trace empty_db) ∧
  get_ideas_may (run tie_trace empty_db)
    (Ok [IdeaResponse.mk tree_house_id "Build a tree house" 0 noon;
         IdeaResponse.mk garden_id "Plant a garden" 0 noon],
     run tie_trace empty_db) ∧
  get_ideas_may (run tie_trace empty_db)
    (Ok [IdeaResponse.mk garden_id "Plant a garden" 0 noon;
         IdeaResponse.mk tree_house_id "Build a tree house" 0 noon],
     run tie_trace empty_db) ∧
  [IdeaResponse.mk tree_house_id "Build a tree house" 0 noon;
   IdeaResponse.mk garden_id "Plant a garden" 0 noon]
  ≠ [IdeaResponse.mk garden_id "Plant a garden" 0 noon;
     IdeaResponse.mk tree_house_id "Build a tree house" 0 noon].
Proof.
  assert (ideas (run tie_trace empty_db)
          = [new_document 0 tree_house_id "Build a tree house" noon;
             new_document 1 garden_id "Plant a garden" noon]) as Hideas
    by (vm_compute; reflexivity).
  split_and!.
  - exists tie_trace. split; reflexivity.
  - exists [new_document 0 tree_house_id "Build a tree house" noon;
            new_document 1 garden_id "Plant a garden" noon].
    split; [split|].
    + by rewrite Hideas.
    + apply (bool_decide_unpack _). vm_compute. exact I.
    + vm_compute. reflexivity.
  - exists [new_document 1 garden_id "Plant a garden" noon;
            new_document 0 tree_house_id "Build a tree house" noon].
    split; [split|].
    + rewrite Hideas. apply Permutation_swap.
    + apply (bool_decide_unpack _). vm_compute. exact I.
    + vm_compute. reflexivity.
  - apply (bool_decide_unpack _). vm_compute. exact I.
Qed.

(** C7, amended: in a reachable state in which stored ideas that agree on
    upvotes and on [created_at] are the same record, whatever order the
    store gives to ties, listing twice with nothing in between gives the
    same answer twice, the one [get_ideas] computes, and the first listing
    leaves the database as it was. *)
Theorem get_ideas_idempotent (db : database)
    (first second : response (list IdeaResponse.t) * database) :
  reachable db → ties_agree db →
  get_ideas_may db first → get_ideas_may (snd first) second →
  snd first = db ∧ second = first ∧ first = get_ideas db.
Proof.
  intros Hwf%reachable_wf Hties H1 H2.
  assert (snd first = db) as Hdb.
  { by destruct (get_ideas_may_wf db first Hwf H1) as (srs & -> & _). }
  rewrite Hdb in H2. split_and!; [done|..].
  - by apply (get_ideas_may_unique db).
  - apply (get_ideas_may_unique db); [done..|apply get_ideas_may_get_ideas].
Qed.

Lemma get_ideas_idempotent_witness :
  reachable sample_db ∧ ties_agree sample_db ∧
  get_ideas_may sample_db
    (Ok [IdeaResponse.mk tree_house_id "Build a tree house" 1 noon;
         IdeaResponse.mk garden_id "Plant a garden" 0 later], sample_db) ∧
  get_ideas sample_db
  = (Ok [IdeaResponse.mk tree_house_id "Build a tree house" 1 noon;
         IdeaResponse.mk garden_id "Plant a garden" 0 later], sample_db).
Proof.
  assert (reachable sample_db) as Hreach.
  { exists sample_trace. split; reflexivity. }
  assert (ties_agree sample_db) as Hties.
  { apply (bool_decide_unpack _). vm_compute. exact I. }
  assert (get_ideas_may sample_db
            (Ok [IdeaResponse.mk tree_house_id "Build a tree house" 1 noon;
                 IdeaResponse.mk garden_id "Plant a garden" 0 later], sample_db))
    as Hfirst.
  { exists [tree_house_doc; garden_doc]. split; [split|].
    - by rewrite sample_db_ideas.
    - apply (bool_decide_unpack _). vm_compute. exact I.
    - vm_compute. reflexivity. }
  split_and!; [done..|].
  symmetry.
  exact (proj2 (proj2 (get_ideas_idempotent sample_db _ _ Hreach Hties Hfirst
                         (get_ideas_may_get_ideas sample_db)))).
Defined.

(** C8, as stated, fails on the distinctness of ids: two create requests
    for which [uuid.uuid4()] returned the same string lead to a reachable
    state with two ideas of one id. *)
Lemma ids_distinct_counterexample :
  clock_ok twin_trace = true ∧
  length (ideas (run twin_trace empty_db)) = 2%nat ∧
  ¬ NoDup (doc_ids (run twin_trace empty_db)).
Proof.
  split; [reflexivity|]. split; [reflexivity|].
  apply (bool_decide_unpack _). vm_compute. exact I.
Qed.

(** C8, amended: in every state reachable from the empty store, every
    stored idea has an integer [upvotes] that is at least 0, and no request
    lowers the upvotes of any stored idea (it leaves the idea in place with
    the same id, text and [created_at]).  The ids of the stored ideas are
    pairwise distinct provided that every create drew from [uuid.uuid4()] a
    string that no stored idea carried. *)
Theorem reachable_invariants (reqs : list request) :
  clock_ok reqs = true →
  let db := run reqs empty_db in
  (∀ d, d ∈ ideas db → ∃ k, d !! "upvotes" = Some (VInt k) ∧ 0 ≤ k) ∧
  (uuids_fresh reqs empty_db = true → NoDup (doc_ids db)) ∧
  (∀ rq i d r,
     ideas db !! i = Some d → to_response d = Some r →
     ∃ d' k,
       ideas (handle rq db) !! i = Some d' ∧
       to_response d' = Some (with_upvotes r k) ∧
       IdeaResponse.upvotes r ≤ k).
Proof.
  intros Hc db.
  assert (wf_db db) as Hwf by (apply wf_db_run; [done|by apply Forall_nil]).
  split_and!.
  - intros d Hd. unfold wf_db in Hwf. rewrite Forall_forall in Hwf.
    destruct (Hwf d Hd) as (r & (_ & _ & _ & Hu & _) & (_ & Hk & _)). eauto.
  - intros Hf. apply NoDup_doc_ids_run; [done..|by apply Forall_nil|].
    apply NoDup_nil_2.
  - intros rq i d r Hi Hd.
    destruct (to_response_inv d r (wf_db_lookup db i d Hwf Hi) Hd) as (Hst & Hr).
    destruct (handle_lookup rq db i d r Hwf Hi Hst) as (k & Hk & Hi').
    exists (<["upvotes" := VInt k]> d), k. split_and!; [done| |done].
    apply to_response_wf; [by apply stored_upvotes|].
    apply wf_idea_upvotes; [done|]. destruct Hr as (_ & ? & _). lia.
Qed.

Lemma reachable_invariants_witness :
  clock_ok sample_trace = true ∧
  uuids_fresh sample_trace empty_db = true ∧
  (∀ d, d ∈ ideas sample_db → ∃ k, d !! "upvotes" = Some (VInt k) ∧ 0 ≤ k) ∧
  NoDup (doc_ids sample_db) ∧
  (∀ rq i d r,
     ideas sample_db !! i = Some d → to_response d = Some r →
     ∃ d' k,
       ideas (handle rq sample_db) !! i = Some d' ∧
       to_response d' = Some (with_upvotes r k) ∧
       IdeaResponse.upvotes r ≤ k).
Proof.
  assert (clock_ok sample_trace = true) as Hc by reflexivity.
  assert (uuids_fresh sample_trace empty_db = true) as Hf by (vm_compute; reflexivity).
  destruct (reachable_invariants sample_trace Hc) as (H1 & H2 & H3).
  split; [exact Hc|]. split; [exact Hf|]. split; [exact H1|].
  split; [exact (H2 Hf)|exact H3].
Defined.

(** C9: in every reachable state, each stored [created_at] is the
    [isoformat] string of a valid UTC datetime, printed with the offset
    [+00:00]; since every request leads from a reachable state to a
    reachable state, every operation preserves this.  On such strings the
    byte-wise comparison that the store's sort applies is the comparison
    of the instants (microseconds since 0001-01-01T00:00 UTC), which on
    UTC datetimes is also the field-wise comparison of [datetime]. *)
Theorem created_at_sorts_chronologically (db : database) (d1 d2 : document) :
  reachable db → d1 ∈ ideas db → d2 ∈ ideas db →
  ∃ t1 t2,
    d1 !! "created_at" = Some (VStr (isoformat t1)) ∧
    d2 !! "created_at" = Some (VStr (isoformat t2)) ∧
    is_utc t1 = true ∧ is_utc t2 = true ∧
    (∃ p1, isoformat t1 = p1 +:+ "+00:00") ∧
    (∃ p2, isoformat t2 = p2 +:+ "+00:00") ∧
    bson_compare (d1 !! "created_at") (d2 !! "created_at")
    = (timestamp_us t1 ?= timestamp_us t2) ∧
    datetime_cmp t1 t2 = (timestamp_us t1 ?= timestamp_us t2) ∧
    (∀ rq, clock_of rq → reachable (handle rq db)).
Proof.
  intros Hreach H1 H2. pose proof (reachable_wf db Hreach) as Hwf.
  unfold wf_db in Hwf. rewrite Forall_forall in Hwf.
  destruct (Hwf d1 H1) as (r1 & (_ & _ & _ & _ & Hc1) & (_ & _ & Hu1)).
  destruct (Hwf d2 H2) as (r2 & (_ & _ & _ & _ & Hc2) & (_ & _ & Hu2)).
  exists (IdeaResponse.created_at r1), (IdeaResponse.created_at r2).
  split_and!; try done.
  - by apply isoformat_utc_suffix.
  - by apply isoformat_utc_suffix.
  - rewrite Hc1, Hc2. cbn [bson_compare].
    by rewrite isoformat_compare, datetime_cmp_timestamp.
  - by apply datetime_cmp_timestamp.
  - intros rq Hrq. by apply reachable_handle.
Qed.

Lemma created_at_sorts_chronologically_witness :
  reachable sample_db ∧
  ∃ t1 t2,
    tree_house_doc !! "created_at"
      = Some (VStr (isoformat t1)) ∧
    garden_doc !! "created_at"
      = Some (VStr (isoformat t2)) ∧
    is_utc t1 = true ∧ is_utc t2 = true ∧
    (∃ p1, isoformat t1 = p1 +:+ "+00:00") ∧
    (∃ p2, isoformat t2 = p2 +:+ "+00:00") ∧
    bson_compare (tree_house_doc !! "created_at") (garden_doc !! "created_at")
    = (timestamp_us t1 ?= timestamp_us t2) ∧
    datetime_cmp t1 t2 = (timestamp_us t1 ?= timestamp_us t2) ∧
    (∀ rq, clock_of rq → reachable (handle rq sample_db)).
Proof.
  assert (reachable sample_db) as Hreach.
  { exists sample_trace. split; reflexivity. }
  split; [exact Hreach|].
  apply (created_at_sorts_chronologically sample_db); [exact Hreach|..].
  - apply (bool_decide_unpack _). vm_compute. exact I.
  - apply (bool_decide_unpack _). vm_compute. exact I.
Defined.

(** C10: the timestamp serialization round-trips exactly.  For every
    dictionary whose [created_at] is a datetime object,
    [parse_from_mongo (prepare_for_mongo data)] does not raise and gives
    back the dictionary itself, so in particular a [created_at] equal to
    the original one, microseconds and offset included. *)
Theorem parse_prepare_roundtrip (data : document) (dt : datetime) :
  data !! "created_at" = Some (VDatetime dt) →
  valid_datetime dt = true →
  parse_from_mongo (prepare_for_mongo data) = Some data ∧
  (parse_from_mongo (prepare_for_mongo data)
     ≫= λ item, item !! "created_at") = Some (VDatetime dt).
Proof.
  intros Hc Hv.
  assert (parse_from_mongo (prepare_for_mongo data) = Some data) as E.
  { unfold parse_from_mongo, prepare_for_mongo. rewrite Hc.
    rewrite lookup_insert_eq, fromisoformat_isoformat by done.
    cbn [mbind option_bind]. rewrite insert_insert_eq. f_equal.
    by apply insert_id. }
  split; [done|]. by rewrite E.
Qed.

Lemma parse_prepare_roundtrip_witness :
  valid_datetime later = true ∧
  parse_from_mongo
    (prepare_for_mongo (Idea.dict (Idea.mk garden_id "Plant a garden" 0 later)))
  = Some (Idea.dict (Idea.mk garden_id "Plant a garden" 0 later)).
Proof.
  split; [reflexivity|].
  apply (parse_prepare_roundtrip _ later); reflexivity.
Defined.

(** * Further properties *)

(** ** The journal of a session *)

Lemma journal_entry_wf d t : journal_entry d t → wf_doc d.
Proof. intros (r & ? & ? & _). by exists r. Qed.

Lemma journal_wf_db db ts : Forall2 journal_entry (ideas db) ts → wf_db db.
Proof.
  unfold wf_db. induction 1; constructor; eauto using journal_entry_wf.
Qed.

Lemma journal_entry_upvotes d t k :
  journal_entry d t → 0 ≤ k → journal_entry (<["upvotes" := VInt k]> d) t.
Proof.
  intros (r & Hst & Hr & Ht) Hk. exists (with_upvotes r k). split_and!.
  - by apply stored_upvotes.
  - by apply wf_idea_upvotes.
  - by destruct r.
Qed.

Lemma journal_handle rq db ts :
  clock_of rq → Forall2 journal_entry (ideas db) ts →
  Forall2 journal_entry (ideas (handle rq db)) (ts ++ creations [rq]).
Proof.
  intros Hclock HF. pose proof (journal_wf_db db ts HF) as Hwf.
  destruct rq as [|text uid now|x]; simpl.
  - by rewrite get_ideas_db, app_nil_r.
  - unfold creations. simpl.
    destruct (decide (1 ≤ String.length text ≤ 280)%nat) as [Hlen|Hlen].
    + rewrite create_idea_valid, IdeaCreate_init_Some by done. simpl.
      apply Forall2_app; [done|]. constructor; [|constructor].
      exists (IdeaResponse.mk uid text 0 now). split_and!; [apply stored_new| |done].
      repeat split; simpl; lia || done.
    + rewrite create_idea_invalid, IdeaCreate_init_None by lia. simpl.
      by rewrite app_nil_r.
  - unfold creations. simpl. rewrite app_nil_r.
    destruct (upvote_idea_wf x db Hwf)
      as [[_ ->]|(i & d & r & (Hi & _)%list_find_Some & Hst & Hr & ->)]; [done|].
    simpl. destruct (Forall2_lookup_l _ _ _ _ _ HF Hi) as (t & Ht & Hdt).
    rewrite <- (list_insert_id ts i t Ht). apply Forall2_insert; [done|].
    destruct Hdt as (r' & Hst' & Hr' & Hid).
    apply journal_entry_upvotes; [by exists r'|].
    destruct Hr as (_ & ? & _). lia.
Qed.

Lemma creations_snoc reqs rq : creations (reqs ++ [rq]) = creations reqs ++ creations [rq].
Proof. unfold creations. by rewrite omap_app. Qed.

Lemma clock_ok_snoc reqs rq :
  clock_ok (reqs ++ [rq]) = true ↔ clock_ok reqs = true ∧ clock_of rq.
Proof.
  unfold clock_ok. rewrite forallb_app, andb_true_iff. simpl.
  rewrite andb_true_r. destruct rq; simpl; intuition.
Qed.

Lemma journal_run reqs :
  clock_ok reqs = true →
  Forall2 journal_entry (ideas (run reqs empty_db)) (creations reqs).
Proof.
  induction reqs as [|rq reqs IH] using rev_ind; intros Hc; [constructor|].
  apply clock_ok_snoc in Hc as [Hc Hrq].
  rewrite run_snoc, creations_snoc. by apply journal_handle; [|apply IH].
Qed.

Lemma journal_identities l ts rs :
  Forall2 journal_entry l ts →
  Forall2 (λ d r, stored d r ∧ wf_idea r) l rs →
  identity_of <$> rs = ts.
Proof.
  intros HF. revert rs.
  induction HF as [|d t l ts (r & Hst & Hr & Ht) _ IH]; intros rs HF2.
  - by inversion HF2.
  - inversion HF2 as [|? r' ? rs' [Hst' Hr'] HF2']; simplify_eq. simpl.
    assert (r' = r) as ->.
    { pose proof (to_response_wf _ _ Hst Hr).
      pose proof (to_response_wf _ _ Hst' Hr'). congruence. }
    f_equal. by apply IH.
Qed.

(** X1: the stored ideas are a journal of the session.  After any session
    that starts in the empty store, the documents of the collection, in
    natural order, read back as records whose (id, text, created_at) are
    exactly those of the accepted create requests, in the order of the
    requests: no request removes, reorders or edits an idea, and a refused
    create leaves no trace. *)
Theorem ideas_are_journal (reqs : list request) :
  clock_ok reqs = true →
  ∃ rs,
    mapM to_response (ideas (run reqs empty_db)) = Some rs ∧
    identity_of <$> rs = creations reqs ∧
    length (ideas (run reqs empty_db)) = length (creations reqs).
Proof.
  intros HF%journal_run.
  destruct (mapM_to_response_wf _ (journal_wf_db _ _ HF)) as (rs & Hrs & HF2).
  exists rs. split; [done|]. split; [|by eapply Forall2_length].
  by eapply journal_identities.
Qed.

Lemma ideas_are_journal_witness :
  clock_ok sample_trace = true ∧
  ∃ rs,
    mapM to_response (ideas sample_db) = Some rs ∧
    identity_of <$> rs
    = [(tree_house_id, "Build a tree house", noon);
       (garden_id, "Plant a garden", later)] ∧
    length (ideas sample_db) = 2%nat.
Proof.
  split; [reflexivity|]. exact (ideas_are_journal sample_trace eq_refl).
Defined.

(** ** Conservation of upvotes *)

Lemma counted_sum_app x l1 l2 :
  foldr (λ d acc, counted x d + acc) 0 (l1 ++ l2)
  = foldr (λ d acc, counted x d + acc) 0 l1
    + foldr (λ d acc, counted x d + acc) 0 l2.
Proof. induction l1 as [|d l1 IH]; simpl; lia. Qed.

Lemma counted_sum_insert x l i d d' :
  l !! i = Some d →
  foldr (λ d acc, counted x d + acc) 0 (<[i := d']> l)
  = foldr (λ d acc, counted x d + acc) 0 l - counted x d + counted x d'.
Proof.
  revert i. induction l as [|d0 l IH]; intros [|i] Hi; simplify_eq/=; [lia|].
  rewrite (IH i Hi). lia.
Qed.

Lemma counted_stored x d r :
  stored d r →
  counted x d = if decide (IdeaResponse.id r = x) then IdeaResponse.upvotes r else 0.
Proof.
  intros Hst. unfold counted, upvotes_field.
  pose proof (has_id_stored x d r Hst) as Hid.
  destruct Hst as (_ & _ & _ & -> & _).
  destruct (decide (has_id x d)) as [H|H], (decide (IdeaResponse.id r = x)) as [E|E];
    try done.
  - by apply Hid in H.
  - by apply Hid in E.
Qed.

Lemma upvotes_for_handle x rq db :
  wf_db db →
  upvotes_for x (handle rq db)
  = upvotes_for x db + accepted_upvotes_for x [rq] db.
Proof.
  intros Hwf. unfold upvotes_for. destruct rq as [|text uid now|y]; simpl.
  - rewrite get_ideas_db. lia.
  - destruct (decide (1 ≤ String.length text ≤ 280)%nat) as [Hlen|Hlen].
    + rewrite create_idea_valid by done. simpl. rewrite counted_sum_app. simpl.
      rewrite (counted_stored x _ _ (stored_new (next_oid db) uid text now)).
      simpl. case_decide; lia.
    + rewrite create_idea_invalid by lia. simpl. lia.
  - destruct (upvote_idea_wf y db Hwf)
      as [[_ ->]|(i & d & r & (Hi & Hid & _)%list_find_Some & Hst & Hr & ->)].
    + simpl. case_decide; lia.
    + simpl. rewrite (counted_sum_insert x _ i d _ Hi).
      rewrite (counted_stored x d r Hst).
      rewrite (counted_stored x _ _ (stored_upvotes d r _ Hst)). simpl.
      apply (has_id_stored y d r Hst) in Hid.
      repeat case_decide; simplify_eq; lia.
Qed.

Lemma upvotes_for_run x reqs db :
  clock_ok reqs = true → wf_db db →
  upvotes_for x (run reqs db)
  = upvotes_for x db + accepted_upvotes_for x reqs db.
Proof.
  revert db. induction reqs as [|rq reqs IH]; intros db Hc Hwf; [simpl; lia|].
  apply clock_ok_cons in Hc as [Hrq Hc].
  change (run (rq :: reqs) db) with (run reqs (handle rq db)).
  rewrite IH by (done || by apply wf_db_handle).
  rewrite upvotes_for_handle by done. simpl. lia.
Qed.

Lemma upvotes_for_unique x db i d :
  NoDup (doc_ids db) → ideas db !! i = Some d → has_id x d →
  upvotes_for x db = upvotes_field d.
Proof.
  unfold upvotes_for, doc_ids. generalize (ideas db). intros l. revert i.
  induction l as [|d0 l IH]; intros i Hnd Hi Hd; [done|].
  rewrite fmap_cons in Hnd. apply NoDup_cons in Hnd as [Hnot Hnd]. simpl.
  destruct i as [|i]; simplify_eq/=.
  - unfold counted at 1. rewrite decide_True by done.
    assert (foldr (λ d acc, counted x d + acc) 0 l = 0) as ->; [|lia].
    assert (Forall (λ d', ¬ has_id x d') l) as Hall.
    { apply Forall_forall. intros d' Hd' Hid'. apply Hnot.
      apply list_elem_of_fmap. exists d'. split; [|done].
      unfold has_id in *. congruence. }
    clear -Hall. induction Hall as [|d' l Hd' _ IH]; [done|]. simpl.
    unfold counted at 1. rewrite decide_False by done. lia.
  - unfold counted at 1. rewrite decide_False.
    + rewrite (IH i) by done. lia.
    + intros Hid0. apply Hnot. apply list_elem_of_fmap. exists d.
      split; [unfold has_id in *; congruence|]. by eapply list_elem_of_lookup_2.
Qed.

(** X2: no upvote is lost and none is invented.  After any session that
    starts in the empty store, the upvotes of the stored ideas with id [x],
    added up, are the number of upvote requests for [x] that the service
    answered with a record.  When every create drew an unused id, this is
    the [upvotes] of the one idea with that id. *)
Theorem upvotes_are_conserved (x : string) (reqs : list request) :
  clock_ok reqs = true →
  upvotes_for x (run reqs empty_db) = accepted_upvotes_for x reqs empty_db ∧
  (uuids_fresh reqs empty_db = true →
   ∀ i d r,
     ideas (run reqs empty_db) !! i = Some d → to_response d = Some r →
     IdeaResponse.id r = x →
     IdeaResponse.upvotes r = accepted_upvotes_for x reqs empty_db).
Proof.
  intros Hc.
  assert (wf_db empty_db) as Hwf0 by constructor.
  pose proof (upvotes_for_run x reqs empty_db Hc Hwf0) as Hsum.
  change (upvotes_for x empty_db) with 0 in Hsum. rewrite Z.add_0_l in Hsum.
  split; [done|]. intros Hf i d r Hi Hd Hid.
  pose proof (wf_db_run reqs empty_db Hc Hwf0) as Hwf.
  destruct (to_response_inv d r (wf_db_lookup _ i d Hwf Hi) Hd) as (Hst & _).
  assert (NoDup (doc_ids (run reqs empty_db))) as Hnd.
  { apply NoDup_doc_ids_run; [done..|apply NoDup_nil_2]. }
  assert (has_id x d) as Hx by (by apply (has_id_stored x d r)).
  rewrite <- Hsum, (upvotes_for_unique x _ i d Hnd Hi Hx).
  unfold upvotes_field. by destruct Hst as (_ & _ & _ & -> & _).
Qed.

Lemma upvotes_are_conserved_witness :
  clock_ok ranking_trace = true ∧
  upvotes_for "id-b" (run ranking_trace empty_db) = 2 ∧
  accepted_upvotes_for "id-b" ranking_trace empty_db = 2.
Proof.
  split; [reflexivity|].
  pose proof (proj1 (upvotes_are_conserved "id-b" ranking_trace eq_refl)) as H.
  split; [rewrite H|]; vm_compute; reflexivity.
Defined.

(** ** Status codes *)

Lemma elem_of_doc_ids x db :
  Some (VStr x) ∈ doc_ids db ↔ ∃ d, d ∈ ideas db ∧ has_id x d.
Proof.
  unfold doc_ids. rewrite list_elem_of_fmap. unfold has_id. split.
  - intros (d & Hid & Hd). eauto.
  - intros (d & Hd & Hid). eauto.
Qed.

Lemma upvote_idea_present x db :
  wf_db db → Some (VStr x) ∈ doc_ids db →
  ∃ r db', upvote_idea x db = (Ok r, db') ∧ IdeaResponse.id r = x.
Proof.
  intros Hwf (d & Hd & Hid)%elem_of_doc_ids.
  destruct (upvote_idea_wf x db Hwf)
    as [[Hnone _]|(i & d0 & r & (_ & Hid0 & _)%list_find_Some & Hst & _ & ->)].
  - apply (list_find_None (has_id x)) in Hnone.
    rewrite Forall_forall in Hnone. by destruct (Hnone d Hd).
  - eexists _, _. split; [done|]. simpl. by apply (has_id_stored x d0 r).
Qed.

Lemma upvote_idea_absent x db :
  Some (VStr x) ∉ doc_ids db → upvote_idea x db = (HTTPError 404, db).
Proof.
  intros Hnot. apply upvote_idea_missing. apply Forall_forall.
  intros d Hd Hid. apply Hnot. apply elem_of_doc_ids. eauto.
Qed.

(** X3: the status codes.  In a reachable state no request is answered with
    a server error: listing answers 200; create answers 200 when the text
    has 1 to 280 characters and 422 otherwise; upvote answers 200 when some
    stored idea carries the id (also when several do) and 404 otherwise. *)
Theorem answer_codes (rq : request) (db : database) :
  reachable db →
  answer rq db
  = match rq with
    | GetIdeas => 200
    | CreateIdea text _ _ =>
        if decide (1 ≤ String.length text ≤ 280)%nat then 200 else 422
    | UpvoteIdea idea_id =>
        if decide (Some (VStr idea_id) ∈ doc_ids db) then 200 else 404
    end.
Proof.
  intros Hwf%reachable_wf. destruct rq as [|text uid now|x]; simpl.
  - by destruct (get_ideas_wf db Hwf) as (srs & -> & _).
  - case_decide as Hlen.
    + by rewrite create_idea_valid.
    + by rewrite create_idea_invalid by lia.
  - case_decide as Hx.
    + by destruct (upvote_idea_present x db Hwf Hx) as (r & db' & -> & _).
    + by rewrite upvote_idea_absent.
Qed.

Lemma answer_codes_witness :
  reachable (run twin_trace empty_db) ∧
  answer (UpvoteIdea tree_house_id) (run twin_trace empty_db) = 200 ∧
  answer (UpvoteIdea garden_id) (run twin_trace empty_db) = 404.
Proof.
  assert (reachable (run twin_trace empty_db)) as Hreach.
  { exists twin_trace. split; reflexivity. }
  split; [exact Hreach|].
  split; rewrite (answer_codes _ _ Hreach); vm_compute; reflexivity.
Defined.

(** ** Ideas that share an id *)

Lemma handle_keeps_later_twin rq db x i j di dj :
  wf_db db → (i < j)%nat →
  ideas db !! i = Some di → ideas db !! j = Some dj →
  has_id x di → has_id x dj →
  ideas (handle rq db) !! j = Some dj ∧
  ∃ di', ideas (handle rq db) !! i = Some di' ∧ has_id x di'.
Proof.
  intros Hwf Hij Hi Hj Hxi Hxj.
  destruct (wf_db_lookup db i di Hwf Hi) as (ri & Hsti & _).
  destruct (handle_lookup rq db i di ri Hwf Hi Hsti) as (k & _ & Hi').
  split.
  - destruct rq as [|text uid now|y]; simpl.
    + by rewrite get_ideas_db.
    + destruct (decide (1 ≤ String.length text ≤ 280)%nat) as [Hlen|Hlen].
      * rewrite create_idea_valid by done. simpl.
        rewrite lookup_app_l; [done|]. by eapply lookup_lt_Some.
      * by rewrite create_idea_invalid by lia.
    + destruct (upvote_idea_wf y db Hwf)
        as [[_ ->]|(i0 & d0 & r0 & (Hi0 & Hid0 & Hmin)%list_find_Some & _ & _ & ->)];
        [done|]. simpl.
      rewrite list_lookup_insert_ne; [done|]. intros ->.
      assert (d0 = dj) as -> by congruence.
      assert (y = x) as -> by (unfold has_id in *; congruence).
      by apply (Hmin i di Hi Hij).
  - eexists. split; [exact Hi'|]. unfold has_id. by rewrite insert_upvotes_ids.
Qed.

(** X4: of two stored ideas with one id, only the older can be upvoted.
    When the documents [i] and [j], [i] before [j], carry the same id in a
    reachable state, no later session changes document [j]: every upvote
    of that id goes to a document stored before it. *)
Theorem later_twin_is_frozen (db : database) (x : string) (i j : nat)
    (di dj : document) (reqs : list request) :
  reachable db → clock_ok reqs = true → (i < j)%nat →
  ideas db !! i = Some di → ideas db !! j = Some dj →
  has_id x di → has_id x dj →
  ideas (run reqs db) !! j = Some dj.
Proof.
  intros Hwf%reachable_wf Hc Hij Hi Hj Hxi Hxj.
  revert db di Hwf Hi Hj Hxi.
  induction reqs as [|rq reqs IH]; intros db di Hwf Hi Hj Hxi; [done|].
  apply clock_ok_cons in Hc as [Hrq Hc].
  destruct (handle_keeps_later_twin rq db x i j di dj Hwf Hij Hi Hj Hxi Hxj)
    as (Hj' & di' & Hi' & Hxi').
  change (run (rq :: reqs) db) with (run reqs (handle rq db)).
  by apply (IH Hc (handle rq db) di'); [apply wf_db_handle|..].
Qed.

Lemma later_twin_is_frozen_witness :
  reachable (run twin_trace empty_db) ∧
  ideas (run [UpvoteIdea tree_house_id; UpvoteIdea tree_house_id]
             (run twin_trace empty_db)) !! 1%nat
  = Some (new_document 1 tree_house_id "Plant a garden" later).
Proof.
  assert (reachable (run twin_trace empty_db)) as Hreach.
  { exists twin_trace. split; reflexivity. }
  split; [exact Hreach|].
  apply (later_twin_is_frozen (run twin_trace empty_db) tree_house_id 0 1
           (new_document 0 tree_house_id "Build a tree house" noon));
    [exact Hreach|reflexivity|lia|vm_compute; reflexivity..].
Defined.

(** ** Reading a stored document and writing it back *)

(** X5: on the documents of a reachable state, [prepare_for_mongo] undoes
    [parse_from_mongo]: parsing succeeds with a UTC datetime in
    [created_at], and preparing the parsed dictionary gives back the stored
    document, its [created_at] string character for character. *)
Theorem prepare_parse_roundtrip (db : database) (d : document) :
  reachable db → d ∈ ideas db →
  ∃ item dt,
    parse_from_mongo d = Some item ∧
    item !! "created_at" = Some (VDatetime dt) ∧ is_utc dt = true ∧
    prepare_for_mongo item = d.
Proof.
  intros Hwf%reachable_wf Hd. unfold wf_db in Hwf. rewrite Forall_forall in Hwf.
  destruct (Hwf d Hd) as (r & (_ & _ & _ & _ & Hc) & (_ & _ & Hutc)).
  pose proof Hutc as [Hv _]%is_utc_spec.
  exists (<["created_at" := VDatetime (IdeaResponse.created_at r)]> d),
    (IdeaResponse.created_at r).
  unfold parse_from_mongo, prepare_for_mongo.
  rewrite Hc, fromisoformat_isoformat by done. cbn [mbind option_bind].
  rewrite lookup_insert_eq. split_and!; [done..|].
  rewrite insert_insert_eq. by apply insert_id.
Qed.

Lemma prepare_parse_roundtrip_witness :
  reachable sample_db ∧
  ∃ item dt,
    parse_from_mongo garden_doc = Some item ∧
    item !! "created_at" = Some (VDatetime dt) ∧ is_utc dt = true ∧
    prepare_for_mongo item = garden_doc.
Proof.
  assert (reachable sample_db) as Hreach.
  { exists sample_trace. split; reflexivity. }
  split; [exact Hreach|].
  apply (prepare_parse_roundtrip sample_db garden_doc Hreach).
  apply (bool_decide_unpack _). vm_compute. exact I.
Defined.

(** ** Configuration *)

Lemma split_nonempty sep s : split sep s ≠ [].
Proof.
  destruct s as [|c rest]; simpl; [done|].
  destruct (Ascii.eqb c sep); [done|]. by destruct (split sep rest).
Qed.

Lemma concat_cons_nonempty sep p l :
  l ≠ [] → String.concat sep (p :: l) = p +:+ sep +:+ String.concat sep l.
Proof. by destruct l. Qed.

Lemma concat_split sep s : String.concat (String sep "") (split sep s) = s.
Proof.
  induction s as [|c rest IH]; simpl; [done|].
  destruct (Ascii.eqb_spec c sep) as [->|Hne].
  - rewrite concat_cons_nonempty by apply split_nonempty.
    by rewrite IH.
  - pose proof (split_nonempty sep rest) as Hn.
    destruct (split sep rest) as [|p [|q ps]]; [done|..].
    + simpl in *. by rewrite IH.
    + rewrite concat_cons_nonempty by done.
      rewrite concat_cons_nonempty in IH by done.
      by rewrite <- IH.
Qed.

Lemma length_split sep s : length (split sep s) = S (count_char sep s).
Proof.
  induction s as [|c rest IH]; simpl; [done|].
  destruct (Ascii.eqb c sep); simpl; [by rewrite IH|].
  pose proof (split_nonempty sep rest).
  destruct (split sep rest); [done|]. simpl in *. lia.
Qed.

Lemma split_pieces sep s :
  Forall (λ piece, count_char sep piece = 0%nat) (split sep s).
Proof.
  induction s as [|c rest IH]; simpl; [by repeat constructor|].
  destruct (Ascii.eqb c sep) eqn:E; [by constructor|].
  destruct (split sep rest) as [|p ps]; [by repeat constructor; simpl; rewrite E|].
  apply Forall_cons in IH as [Hp Hps]. constructor; [|done].
  simpl. by rewrite E, Hp.
Qed.

(** X6: the allowed origins are the comma-separated pieces of the
    configured value, taken as they are.  Joined by commas they give back
    [CORS_ORIGINS] (or ["*"] when the variable is not set) character for
    character, so no piece is trimmed or dropped; no piece contains a
    comma; and there is one piece more than there are commas, hence always
    at least one (an empty value gives one empty origin). *)
Theorem allow_origins_pieces (environ : gmap string string) :
  String.concat "," (allow_origins environ)
  = default "*" (environ !! "CORS_ORIGINS") ∧
  Forall (λ origin, count_char "," origin = 0%nat) (allow_origins environ) ∧
  length (allow_origins environ)
  = S (count_char "," (default "*" (environ !! "CORS_ORIGINS"))) ∧
  (environ !! "CORS_ORIGINS" = None → allow_origins environ = ["*"]).
Proof.
  unfold allow_origins. split_and!.
  - apply concat_split.
  - apply split_pieces.
  - apply length_split.
  - by intros ->.
Qed.

Example allow_origins_docker :
  allow_origins {[ "CORS_ORIGINS" := "http://localhost:3000,http://frontend:3000" ]}
  = ["http://localhost:3000"; "http://frontend:3000"].
Proof. vm_compute. reflexivity. Qed.

Example allow_origins_spaces :
  allow_origins {[ "CORS_ORIGINS" := "http://a.example, http://b.example" ]}
  = ["http://a.example"; " http://b.example"].
Proof. vm_compute. reflexivity. Qed.

(** ** Status checks *)

Lemma StatusCheck_init_stored d r uid now :
  stored_status d r → StatusCheck.init d uid now = Some r.
Proof.
  intros (Hi & Hn & Ht). unfold StatusCheck.init. rewrite Hi, Hn, Ht.
  by destruct r.
Qed.

Lemma create_status_check_eq client_name uid now db :
  create_status_check client_name uid now db
  = (Ok (StatusCheck.mk uid client_name now),
     mk_status_db
       (status_checks db
        ++ [to_bson (<["_id" := VObjectId (status_next_oid db)]>
                       (StatusCheck.dict (StatusCheck.mk uid client_name now)))])
       (status_next_oid db + 1)%N).
Proof.
  unfold create_status_check.
  assert (StatusCheck.init
            (StatusCheckCreate.dict (StatusCheckCreate.mk client_name)) uid now
          = Some (StatusCheck.mk uid client_name now)) as ->.
  { unfold StatusCheck.init, StatusCheckCreate.dict. by simplify_map_eq. }
  unfold insert_status.
  assert (StatusCheck.dict (StatusCheck.mk uid client_name now) !! "_id" = None)
    as ->; [|done].
  unfold StatusCheck.dict. by simplify_map_eq.
Qed.

Lemma stored_status_new oid client_name uid now :
  stored_status
    (to_bson (<["_id" := VObjectId oid]>
                (StatusCheck.dict (StatusCheck.mk uid client_name now))))
    (StatusCheck.mk uid client_name (bson_date now)).
Proof.
  unfold stored_status, to_bson, StatusCheck.dict. rewrite !lookup_fmap.
  simpl. by simplify_map_eq.
Qed.

Lemma status_journal_snoc reqs rq :
  status_journal (reqs ++ [rq]) = status_journal reqs ++ status_journal [rq].
Proof. unfold status_journal. by rewrite omap_app. Qed.

Lemma run_status_snoc reqs rq db :
  run_status (reqs ++ [rq]) db = handle_status rq (run_status reqs db).
Proof. unfold run_status. by rewrite foldl_app. Qed.

Lemma status_journal_run reqs :
  Forall2 stored_status (status_checks (run_status reqs empty_status_db))
          (status_journal reqs).
Proof.
  induction reqs as [|rq reqs IH] using rev_ind; [constructor|].
  rewrite run_status_snoc, status_journal_snoc.
  destruct rq as [|client_name uid now]; simpl.
  - by rewrite app_nil_r.
  - rewrite create_status_check_eq. simpl.
    apply Forall2_app; [done|]. constructor; [|constructor].
    apply stored_status_new.
Qed.

Lemma imap_init_stored (draw : nat → string * datetime) l rs :
  Forall2 stored_status l rs →
  imap (λ i d, StatusCheck.init d (draw i).1 (draw i).2) l = Some <$> rs.
Proof.
  intros HF. revert draw.
  induction HF as [|d r l rs Hd _ IH]; intros draw; [done|].
  rewrite imap_cons, fmap_cons. f_equal.
  - by apply StatusCheck_init_stored.
  - apply (IH (λ i, draw (S i))).
Qed.

Lemma mapM_id_Some {A} (l : list A) : mapM (λ x, x) (Some <$> l) = Some l.
Proof. apply mapM_Some. induction l; constructor; auto. Qed.

Lemma get_status_checks_stored draw db rs :
  Forall2 stored_status (status_checks db) rs →
  get_status_checks draw db = (Ok (take 1000 rs), db).
Proof.
  intros HF. unfold get_status_checks, to_list.
  rewrite (imap_init_stored draw _ (take 1000 rs)) by (by apply Forall2_take).
  by rewrite mapM_id_Some.
Qed.

(** X7: the status listing is the journal of the first 1000 status
    checks.  After any session that starts with the empty collection,
    [GET /status] succeeds and returns, in the order of their creation, the
    status checks of the first 1000 create requests, each with the id and
    the client name of its request and with the timestamp as the store
    keeps it; every create is accepted, whatever the client name, and once
    1000 are stored a newer status check is never listed. *)
Theorem status_listing_is_journal (reqs : list status_request)
    (draw : nat → string * datetime) :
  status_clock_ok reqs = true →
  get_status_checks draw (run_status reqs empty_status_db)
  = (Ok (take 1000 (status_journal reqs)), run_status reqs empty_status_db) ∧
  length (status_checks (run_status reqs empty_status_db))
  = length (status_journal reqs).
Proof.
  intros _. pose proof (status_journal_run reqs) as HF. split.
  - by apply get_status_checks_stored.
  - by eapply Forall2_length.
Qed.

Lemma status_listing_is_journal_witness :
  status_clock_ok status_session = true ∧
  get_status_checks (λ _, (garden_id, noon))
    (run_status status_session empty_status_db)
  = (Ok [StatusCheck.mk tree_house_id "frontend" (bson_date noon);
         StatusCheck.mk garden_id "" (bson_date later)],
     run_status status_session empty_status_db).
Proof.
  split; [reflexivity|].
  exact (proj1 (status_listing_is_journal status_session _ eq_refl)).
Defined.

Lemma timestamp_us_bson_date d :
  0 ≤ microsecond d ≤ 999999 → tzinfo d = Some 0 ∨ tzinfo d = None →
  timestamp_us (bson_date d) = timestamp_us d / 1000 * 1000.
Proof.
  intros Hus Htz. unfold timestamp_us, bson_date, toordinal. simpl.
  assert (default 0 (tzinfo d) = 0) as -> by (by destruct Htz as [->| ->]).
  set (X := (((days_before_year (year d) + days_before_month (year d) (month d)
              + day d) * 24 + hour d) * 60 + minute d - 0) * 60 + second d).
  replace (X * 1000000 + microsecond d)
    with (microsecond d + X * 1000 * 1000) by lia.
  rewrite Z.div_add by lia. lia.
Qed.

(** X8: a status check does not get back the timestamp it was given.
    [POST /status] answers with the clock reading itself, but the document
    it stores (written without [prepare_for_mongo]) reads back with a
    naive timestamp cut to whole milliseconds: its instant is the clock
    reading rounded down to the millisecond, its [tzinfo] is gone, and so
    as a datetime it never equals the one returned at creation. *)
Theorem status_timestamp_is_truncated (client_name uid : string)
    (now : datetime) (db : status_db) (uid' : string) (now' : datetime) :
  is_utc now = true →
  ∃ doc,
    create_status_check client_name uid now db
    = (Ok (StatusCheck.mk uid client_name now),
       mk_status_db (status_checks db ++ [doc]) (status_next_oid db + 1)%N) ∧
    StatusCheck.init doc uid' now'
    = Some (StatusCheck.mk uid client_name (bson_date now)) ∧
    bson_date now ≠ now ∧
    tzinfo (bson_date now) = None ∧
    microsecond (bson_date now) mod 1000 = 0 ∧
    timestamp_us (bson_date now) = timestamp_us now / 1000 * 1000.
Proof.
  intros [Hv Hz]%is_utc_spec.
  destruct (valid_datetime_bounds now Hv) as (_ & _ & _ & _ & _ & _ & Hus & _).
  eexists. split; [apply create_status_check_eq|]. split_and!.
  - apply StatusCheck_init_stored, stored_status_new.
  - intros E. apply (f_equal tzinfo) in E. simpl in E. congruence.
  - done.
  - simpl. apply Z.mod_mul. lia.
  - apply timestamp_us_bson_date; auto.
Qed.

Lemma status_timestamp_is_truncated_witness :
  is_utc (mk_datetime 2025 3 14 12 0 0 250999 (Some 0)) = true ∧
  bson_date (mk_datetime 2025 3 14 12 0 0 250999 (Some 0))
  = mk_datetime 2025 3 14 12 0 0 250000 None ∧
  ∃ doc,
    create_status_check "frontend" garden_id
      (mk_datetime 2025 3 14 12 0 0 250999 (Some 0)) empty_status_db
    = (Ok (StatusCheck.mk garden_id "frontend"
             (mk_datetime 2025 3 14 12 0 0 250999 (Some 0))),
       mk_status_db [doc] 1) ∧
    StatusCheck.init doc tree_house_id noon
    = Some (StatusCheck.mk garden_id "frontend"
              (mk_datetime 2025 3 14 12 0 0 250000 None)).
Proof.
  split; [reflexivity|]. split; [reflexivity|].
  destruct (status_timestamp_is_truncated "frontend" garden_id
              (mk_datetime 2025 3 14 12 0 0 250999 (Some 0)) empty_status_db
              tree_house_id noon eq_refl) as (doc & Hc & Hi & _).
  exists doc. split; [exact Hc|exact Hi].
Defined.

(** ** The API tester *)

Lemma run_test_hit {A} expected (resp : response A) self :
  status_of resp = expected →
  Tester.run_test expected resp self
  = (true, match resp with Ok a => Some a | HTTPError _ => None end,
     Tester.mk (S (Tester.tests_run self)) (S (Tester.tests_passed self))
               (Tester.created_idea_ids self)).
Proof. intros <-. unfold Tester.run_test. by rewrite Z.eqb_refl. Qed.

Lemma run_test_miss {A} expected (resp : response A) self :
  status_of resp ≠ expected →
  Tester.run_test expected resp self
  = (false, None,
     Tester.mk (S (Tester.tests_run self)) (Tester.tests_passed self)
               (Tester.created_idea_ids self)).
Proof.
  intros Hne. unfold Tester.run_test.
  by destruct (Z.eqb_spec (status_of resp) expected).
Qed.

Lemma is_sorted_ranked rs :
  StronglySorted ranks_before rs → is_sorted (IdeaResponse.upvotes <$> rs) = true.
Proof.
  induction 1 as [|r rs _ IH Hall]; [done|].
  destruct rs as [|r' rs]; [done|]. simpl in *. rewrite IH, andb_true_r.
  apply Forall_cons in Hall as [[Hgt|[Heq _]] _]; apply Z.leb_le; lia.
Qed.

Lemma test_get_ideas_empty_wf self db :
  wf_db db →
  ∃ out,
    Tester.test_get_ideas_empty self db
    = (true, Some out,
       Tester.mk (S (Tester.tests_run self)) (S (Tester.tests_passed self))
                 (Tester.created_idea_ids self), db).
Proof.
  intros Hwf. destruct (get_ideas_wf db Hwf) as (srs & Hget & _).
  exists (take 1000 srs). unfold Tester.test_get_ideas_empty. rewrite Hget.
  by rewrite run_test_hit.
Qed.

Lemma test_create_idea_valid text uid now self db :
  (1 ≤ String.length text ≤ 280)%nat →
  Tester.test_create_idea text uid now self db
  = (true, Some (IdeaResponse.mk uid text 0 now),
     Tester.mk (S (Tester.tests_run self)) (S (Tester.tests_passed self))
               (Tester.created_idea_ids self ++ [uid]),
     handle (CreateIdea text uid now) db).
Proof.
  intros Hlen. unfold Tester.test_create_idea. simpl handle.
  rewrite create_idea_valid by done. by rewrite run_test_hit.
Qed.

Lemma length_long_text : String.length Tester.long_text = 281%nat.
Proof. reflexivity. Qed.

Lemma test_create_idea_validation_ok draw1 draw2 self db :
  Tester.test_create_idea_validation draw1 draw2 self db
  = (true,
     Tester.mk (S (S (Tester.tests_run self))) (S (S (Tester.tests_passed self)))
               (Tester.created_idea_ids self), db).
Proof.
  unfold Tester.test_create_idea_validation.
  rewrite create_idea_invalid by (left; reflexivity).
  rewrite run_test_hit by done.
  rewrite create_idea_invalid by (right; rewrite length_long_text; lia).
  by rewrite run_test_hit.
Qed.

Lemma test_upvote_idea_present x self db :
  wf_db db → Some (VStr x) ∈ doc_ids db →
  ∃ r,
    Tester.test_upvote_idea x self db
    = (true, Some r,
       Tester.mk (S (Tester.tests_run self)) (S (Tester.tests_passed self))
                 (Tester.created_idea_ids self),
       handle (UpvoteIdea x) db).
Proof.
  intros Hwf Hx. destruct (upvote_idea_present x db Hwf Hx) as (r & db' & Hup & _).
  exists r. unfold Tester.test_upvote_idea. simpl handle. rewrite Hup.
  by rewrite run_test_hit.
Qed.

Lemma upvote_times_present n x self db :
  wf_db db → Some (VStr x) ∈ doc_ids db →
  upvote_times n x self db
  = (Tester.mk (n + Tester.tests_run self) (n + Tester.tests_passed self)
               (Tester.created_idea_ids self),
     run (replicate n (UpvoteIdea x)) db).
Proof.
  revert self db. induction n as [|n IH]; intros self db Hwf Hx.
  - by destruct self.
  - destruct (test_upvote_idea_present x self db Hwf Hx) as (r & Hr).
    cbn [upvote_times]. rewrite Hr. rewrite IH.
    + simpl. do 2 f_equal; lia.
    + by apply (wf_db_handle (UpvoteIdea x)).
    + simpl. by rewrite doc_ids_upvote.
Qed.

Lemma test_upvote_nonexistent_idea_verdict self db :
  wf_db db →
  ∃ response,
    Tester.test_upvote_nonexistent_idea self db
    = (bool_decide (Some (VStr Tester.fake_id) ∉ doc_ids db), response,
       Tester.mk (S (Tester.tests_run self))
                 (if decide (Some (VStr Tester.fake_id) ∈ doc_ids db)
                  then Tester.tests_passed self
                  else S (Tester.tests_passed self))
                 (Tester.created_idea_ids self),
       handle (UpvoteIdea Tester.fake_id) db).
Proof.
  intros Hwf. unfold Tester.test_upvote_nonexistent_idea. simpl handle.
  destruct (decide (Some (VStr Tester.fake_id) ∈ doc_ids db)) as [Hin|Hnot].
  - destruct (upvote_idea_present _ db Hwf Hin) as (r & db' & Hup & _).
    rewrite Hup. rewrite run_test_miss by done.
    rewrite bool_decide_eq_false_2 by auto. eauto.
  - rewrite upvote_idea_absent by done. rewrite run_test_hit by done.
    rewrite bool_decide_eq_true_2 by done. eauto.
Qed.

Lemma test_get_ideas_after_creation_wf self db :
  wf_db db → ideas db ≠ [] →
  ∃ out,
    Tester.test_get_ideas_after_creation self db
    = (true, Some out, Some true,
       Tester.mk (S (Tester.tests_run self)) (S (Tester.tests_passed self))
                 (Tester.created_idea_ids self), db).
Proof.
  intros Hwf Hne.
  destruct (get_ideas_wf db Hwf) as (srs & Hget & _ & _ & Hsorted & Hlen).
  exists (take 1000 srs). unfold Tester.test_get_ideas_after_creation.
  rewrite Hget, run_test_hit by done.
  assert (StronglySorted ranks_before (take 1000 srs)) as Hs.
  { rewrite <- (take_drop 1000 srs) in Hsorted.
    by apply StronglySorted_app_1_l in Hsorted. }
  pose proof (is_sorted_ranked _ Hs) as Hsort.
  destruct (take 1000 srs) as [|r rs] eqn:E.
  - apply (f_equal length) in E. rewrite length_take, Hlen in E.
    destruct (ideas db); [done|]. simpl in E. lia.
  - cbv beta iota. by rewrite Hsort.
Qed.

Lemma doc_ids_run_replicate_upvote n x db :
  wf_db db → doc_ids (run (replicate n (UpvoteIdea x)) db) = doc_ids db.
Proof.
  intros Hwf. rewrite <- (doc_ids_run_upvotes (replicate n x) db Hwf).
  by rewrite fmap_replicate.
Qed.

Lemma wf_db_run_replicate_upvote n x db :
  wf_db db → wf_db (run (replicate n (UpvoteIdea x)) db).
Proof.
  intros Hwf. apply wf_db_run; [|done].
  rewrite <- fmap_replicate. apply clock_ok_upvotes.
Qed.

Lemma length_test_ideas :
  Forall (λ text, (1 ≤ String.length text ≤ 280)%nat) test_ideas.
Proof. repeat constructor; vm_compute; done. Qed.

(** X9: the verdict of the repository's API test.  Run against the service
    in any reachable state, [main] of backend_test.py performs 14 tests,
    records the four ids it was given, finds the final listing sorted by
    upvotes, and leaves a reachable state; it returns 0 exactly when the
    id it uses as non-existent is carried neither by a stored idea nor by
    one of the four ideas it creates, and 1 otherwise. *)
Theorem tester_main_verdict (draw : nat → string * datetime) (db : database) :
  reachable db →
  (∀ i, (i < 4)%nat → is_utc (draw i).2 = true) →
  let drawn := [(draw 0%nat).1; (draw 1%nat).1; (draw 2%nat).1; (draw 3%nat).1] in
  ∃ tester db',
    tester_main draw db
    = (if decide (Some (VStr Tester.fake_id) ∈ doc_ids db ∨ Tester.fake_id ∈ drawn)
       then 1 else 0,
       Some true, tester, db') ∧
    Tester.tests_run tester = 14%nat ∧
    Tester.tests_passed tester
    = (if decide (Some (VStr Tester.fake_id) ∈ doc_ids db ∨ Tester.fake_id ∈ drawn)
       then 13 else 14)%nat ∧
    Tester.created_idea_ids tester = drawn ∧
    reachable db'.
Proof.
  intros Hreach Hclock drawn. pose proof (reachable_wf db Hreach) as Hwf.
  pose proof length_test_ideas as Hlen. unfold test_ideas in Hlen.
  apply Forall_cons in Hlen as [Hl0 Hlen]. apply Forall_cons in Hlen as [Hl1 Hlen].
  apply Forall_cons in Hlen as [Hl2 Hlen]. apply Forall_cons in Hlen as [Hl3 _].
  unfold tester_main, Tester.test_api_root.
  rewrite run_test_hit by done.
  destruct (test_get_ideas_empty_wf
              (Tester.mk 1 1 []) db Hwf) as (out0 & Hget0).
  cbv beta iota zeta. simpl Tester.tests_run. simpl Tester.tests_passed.
  simpl Tester.created_idea_ids. rewrite Hget0.
  unfold test_ideas. cbn [create_test_ideas].
  rewrite test_create_idea_valid by done. cbv beta iota zeta.
  rewrite test_create_idea_valid by done. cbv beta iota zeta.
  rewrite test_create_idea_valid by done. cbv beta iota zeta.
  rewrite test_create_idea_valid by done. cbv beta iota zeta.
  rewrite test_create_idea_validation_ok.
  cbn [Tester.tests_run Tester.tests_passed Tester.created_idea_ids app].
  match goal with
  | |- context [handle ?q3 (handle ?q2 (handle ?q1 (handle ?q0 db)))] =>
      set (rq0 := q0); set (rq1 := q1); set (rq2 := q2); set (rq3 := q3);
      set (db4 := handle rq3 (handle rq2 (handle rq1 (handle rq0 db))))
  end.
  assert (reachable db4) as Hreach4.
  { repeat apply reachable_handle; try done; apply Hclock; lia. }
  pose proof (reachable_wf db4 Hreach4) as Hwf4.
  assert (doc_ids db4 = doc_ids db ++ ((λ u, Some (VStr u)) <$> drawn)) as Hids4.
  { unfold db4, rq3, rq2, rq1, rq0. cbn [handle].
    rewrite !doc_ids_create by done. by rewrite <- !app_assoc. }
  assert (∀ u, u ∈ drawn → Some (VStr u) ∈ doc_ids db4) as Hdrawn.
  { intros u Hu. rewrite Hids4. apply elem_of_app. right.
    by apply (list_elem_of_fmap_2 (λ u, Some (VStr u))). }
  cbv beta iota zeta. cbn [IdeaResponse.id].
  rewrite upvote_times_present; [|done|apply Hdrawn; unfold drawn; by constructor].
  cbn [Tester.tests_run Tester.tests_passed Tester.created_idea_ids Nat.add].
  set (db5 := run (replicate 3 (UpvoteIdea (draw 0%nat).1)) db4).
  assert (wf_db db5) as Hwf5 by (by apply wf_db_run_replicate_upvote).
  assert (doc_ids db5 = doc_ids db4) as Hids5
    by (by apply doc_ids_run_replicate_upvote).
  destruct (test_upvote_idea_present (draw 1%nat).1 (Tester.mk 11 11 drawn) db5 Hwf5)
    as (r1 & Hup1).
  { rewrite Hids5. apply Hdrawn. unfold drawn. by do 2 constructor. }
  fold drawn. rewrite Hup1. cbv beta iota zeta.
  cbn [Tester.tests_run Tester.tests_passed Tester.created_idea_ids].
  set (db6 := handle (UpvoteIdea (draw 1%nat).1) db5).
  assert (wf_db db6) as Hwf6 by (by apply wf_db_handle).
  assert (doc_ids db6 = doc_ids db4) as Hids6.
  { unfold db6. cbn [handle]. by rewrite doc_ids_upvote. }
  destruct (test_upvote_nonexistent_idea_verdict (Tester.mk 12 12 drawn) db6 Hwf6)
    as (response & Hfake).
  rewrite Hfake. cbv beta iota zeta.
  cbn [Tester.tests_run Tester.tests_passed Tester.created_idea_ids].
  set (db7 := handle (UpvoteIdea Tester.fake_id) db6).
  assert (wf_db db7) as Hwf7 by (by apply wf_db_handle).
  assert (doc_ids db7 = doc_ids db4) as Hids7.
  { unfold db7. cbn [handle]. by rewrite doc_ids_upvote. }
  assert (ideas db7 ≠ []) as Hne.
  { intros E. apply (f_equal length) in Hids7. unfold doc_ids in Hids7 at 1.
    rewrite E, Hids4, length_app in Hids7. simpl in Hids7. lia. }
  match goal with
  | |- context [Tester.test_get_ideas_after_creation ?t db7] =>
      destruct (test_get_ideas_after_creation_wf t db7 Hwf7 Hne) as (out & Hlast)
  end.
  rewrite Hlast. cbv beta iota zeta.
  cbn [Tester.tests_run Tester.tests_passed Tester.created_idea_ids].
  assert (reachable db7) as Hreach7.
  { unfold db7, db6, db5.
    apply (reachable_handle (UpvoteIdea _)); [|done].
    apply (reachable_handle (UpvoteIdea _)); [|done].
    do 3 (rewrite replicate_S_end, run_snoc;
          apply (reachable_handle (UpvoteIdea _)); [|done]).
    done. }
  assert (Some (VStr Tester.fake_id) ∈ doc_ids db6
          ↔ Some (VStr Tester.fake_id) ∈ doc_ids db ∨ Tester.fake_id ∈ drawn)
    as Hfake_in.
  { rewrite Hids6, Hids4, elem_of_app, list_elem_of_fmap. split.
    - intros [Hin|(u & [= ->] & Hu)]; [by left|by right].
    - intros [Hin|Hin]; [by left|right]. by exists Tester.fake_id. }
  destruct (decide (Some (VStr Tester.fake_id) ∈ doc_ids db6)) as [Hin|Hnot].
  - eexists _, db7. rewrite !decide_True by (by apply Hfake_in).
    by split_and!.
  - eexists _, db7. rewrite !decide_False by (by rewrite <- Hfake_in).
    by split_and!.
Qed.

Lemma tester_main_verdict_witness :
  reachable sample_db ∧
  ∃ tester db',
    tester_main test_draw sample_db = (0, Some true, tester, db') ∧
    Tester.tests_run tester = 14%nat ∧
    Tester.tests_passed tester = 14%nat ∧
    Tester.created_idea_ids tester
    = [zfill 36 0; zfill 36 1; zfill 36 2; zfill 36 3] ∧
    reachable db'.
Proof.
  assert (reachable sample_db) as Hreach.
  { exists sample_trace. split; reflexivity. }
  split; [exact Hreach|].
  destruct (tester_main_verdict test_draw sample_db Hreach (λ _ _, eq_refl))
    as (tester & db' & Hmain & Hrun & Hpassed & Hids & Hreach').
  assert (¬ (Some (VStr Tester.fake_id) ∈ doc_ids sample_db
             ∨ Tester.fake_id ∈ [(test_draw 0).1; (test_draw 1).1;
                                 (test_draw 2).1; (test_draw 3).1])) as Hnot.
  { apply (bool_decide_unpack _). vm_compute. exact I. }
  rewrite decide_False in Hmain by exact Hnot.
  rewrite decide_False in Hpassed by exact Hnot.
  exists tester, db'. split_and!.
  - exact Hmain.
  - exact Hrun.
  - exact Hpassed.
  - rewrite Hids. vm_compute. reflexivity.
  - exact Hreach'.
Defined.

(** ** The ranking of the listing *)

(** X10: the ranking of the listing.  In every reachable state the list
    endpoint succeeds and leaves the database as it is; its answer is the front of the stored
    records arranged by upvotes descending and, among equal upvotes, by
    [created_at] descending: all records when the collection holds at most
    1000 documents (the empty list for the empty collection), the first
    1000 of that arrangement otherwise. *)
Theorem get_ideas_ranked (db : database) :
  reachable db →
  ∃ out rest rs,
    get_ideas db = (Ok out, db) ∧
    mapM to_response (ideas db) = Some rs ∧
    out ++ rest ≡ₚ rs ∧
    StronglySorted ranks_before (out ++ rest) ∧
    length out = (1000 `min` length (ideas db))%nat ∧
    ((length (ideas db) ≤ 1000)%nat → rest = [] ∧ out ≡ₚ rs) ∧
    (ideas db = [] → out = []).
Proof.
  intros Hwf%reachable_wf.
  destruct (get_ideas_wf db Hwf) as (srs & Hget & _ & Hperm & Hsorted & Hlen).
  destruct (mapM_to_response_wf _ Hwf) as (rs & Hrs & _).
  rewrite (omap_to_response_wf _ _ Hrs) in Hperm.
  exists (take 1000 srs), (drop 1000 srs), rs.
  rewrite take_drop. split_and!; try done.
  - by rewrite length_take, Hlen.
  - intros Hle. rewrite drop_ge by lia. split; [done|].
    by rewrite take_ge by lia.
  - intros Hnil. rewrite Hnil in Hlen. by destruct srs.
Qed.

Lemma get_ideas_ranked_witness :
  reachable sample_db ∧
  ∃ out rest rs,
    get_ideas sample_db = (Ok out, sample_db) ∧
    mapM to_response (ideas sample_db) = Some rs ∧
    out ++ rest ≡ₚ rs ∧
    StronglySorted ranks_before (out ++ rest) ∧
    length out = (1000 `min` length (ideas sample_db))%nat ∧
    ((length (ideas sample_db) ≤ 1000)%nat → rest = [] ∧ out ≡ₚ rs) ∧
    (ideas sample_db = [] → out = []).
Proof.
  assert (reachable sample_db) as Hreach.
  { exists sample_trace. split; reflexivity. }
  split; [exact Hreach|]. apply get_ideas_ranked. exact Hreach.
Defined.
